(** * Parking-System: echo capture, ranging session, classifier and alerts

    A shallow embedding of [project/hal/ultrasonic.c] and
    [project/app/app.c].  The C globals become the fields of one record
    [World]; every C function becomes a computation in a small state monad
    over [World]; the busy-wait of [Ultrasonic_readDistance] and the capture
    interrupt that ends it are interleaved by an explicit schedule. *)

From Stdlib Require Import ZArith List Bool String Lia.
Import ListNotations.
Open Scope Z_scope.

(** ** Machine integers *)

(** [uint8] and [uint16] of [common/std_types.h]: unsigned, wrapping. *)
Definition uint8 (z : Z) : Z := z mod 256.
Definition uint16 (z : Z) : Z := z mod 65536.

(** The two logic levels; ultrasonic.c:28-29 documents the flag as being
    set to 1 and cleared to 0. *)
Definition LOGIC_HIGH : Z := 1.
Definition LOGIC_LOW : Z := 0.

(** ** Enumerations *)

(** Edge selector of the capture unit, as used in ultrasonic.c:45,126,132. *)
Inductive ICU_EdgeType := FALLING | RAISING.

(** app.c:92-98. *)
Inductive STATE_MACHINE := IDLE | DETECTED | SAFE | WARNING | DANGER.

(** The three indicator channels named in app.c. *)
Inductive LED_ID := LED_RED_3 | LED_GREEN_2 | LED_BLUE_1.

(** ** Output pins and the log of collaborator calls *)

(** Levels driven on the output pins: the trigger line of the sensor, the
    three indicator channels and the buzzer. *)
Record Levels := mkLevels {
  trigger_pin : bool;
  led_red : bool;
  led_green : bool;
  led_blue : bool;
  buzzer : bool
}.

(** One entry per call that leaves the two translated files, in program
    order.  A delay entry also records the levels that are held on the
    output pins while the delay runs. *)
Inductive Call :=
| C_GPIO_setPinState (level : bool)
| C_delay_us (n : Z) (held : Levels)
| C_delay_ms (n : Z) (held : Levels)
| C_ICU_interruptOn
| C_ICU_interruptOff
| C_ICU_clearTimerValue
| C_ICU_setEdgeDetectionType (e : ICU_EdgeType)
| C_ICU_getInputCaptureValue (v : Z)
| C_LCD_moveCursor (row col : Z)
| C_LCD_displayString (s : string)
| C_LCD_intgerToString (v : Z)
| C_LED_on (id : LED_ID)
| C_LED_off (id : LED_ID)
| C_Buzzer_on
| C_Buzzer_off.

(** ** The world: C globals, peripheral registers, output pins *)

Record World := mkWorld {
  (* ultrasonic.c:14,23,31 *)
  g_timeHigh : Z;
  g_edgeCount : Z;
  g_readyFlag : Z;
  (* app.c:107,116 *)
  g_distance : Z;
  g_stateMachine : STATE_MACHINE;
  (* capture peripheral *)
  icu_timer : Z;
  icu_edge : ICU_EdgeType;
  icu_irq : bool;
  (* pins and log *)
  out : Levels;
  calls : list Call
}.

Definition set_g_timeHigh (v : Z) (w : World) : World :=
  mkWorld v (g_edgeCount w) (g_readyFlag w) (g_distance w) (g_stateMachine w)
          (icu_timer w) (icu_edge w) (icu_irq w) (out w) (calls w).
Definition set_g_edgeCount (v : Z) (w : World) : World :=
  mkWorld (g_timeHigh w) v (g_readyFlag w) (g_distance w) (g_stateMachine w)
          (icu_timer w) (icu_edge w) (icu_irq w) (out w) (calls w).
Definition set_g_readyFlag (v : Z) (w : World) : World :=
  mkWorld (g_timeHigh w) (g_edgeCount w) v (g_distance w) (g_stateMachine w)
          (icu_timer w) (icu_edge w) (icu_irq w) (out w) (calls w).
Definition set_g_distance (v : Z) (w : World) : World :=
  mkWorld (g_timeHigh w) (g_edgeCount w) (g_readyFlag w) v (g_stateMachine w)
          (icu_timer w) (icu_edge w) (icu_irq w) (out w) (calls w).
Definition set_g_stateMachine (v : STATE_MACHINE) (w : World) : World :=
  mkWorld (g_timeHigh w) (g_edgeCount w) (g_readyFlag w) (g_distance w) v
          (icu_timer w) (icu_edge w) (icu_irq w) (out w) (calls w).
Definition set_icu_timer (v : Z) (w : World) : World :=
  mkWorld (g_timeHigh w) (g_edgeCount w) (g_readyFlag w) (g_distance w)
          (g_stateMachine w) v (icu_edge w) (icu_irq w) (out w) (calls w).
Definition set_icu_edge (v : ICU_EdgeType) (w : World) : World :=
  mkWorld (g_timeHigh w) (g_edgeCount w) (g_readyFlag w) (g_distance w)
          (g_stateMachine w) (icu_timer w) v (icu_irq w) (out w) (calls w).
Definition set_icu_irq (v : bool) (w : World) : World :=
  mkWorld (g_timeHigh w) (g_edgeCount w) (g_readyFlag w) (g_distance w)
          (g_stateMachine w) (icu_timer w) (icu_edge w) v (out w) (calls w).
Definition set_out (v : Levels) (w : World) : World :=
  mkWorld (g_timeHigh w) (g_edgeCount w) (g_readyFlag w) (g_distance w)
          (g_stateMachine w) (icu_timer w) (icu_edge w) (icu_irq w) v (calls w).
Definition set_calls (v : list Call) (w : World) : World :=
  mkWorld (g_timeHigh w) (g_edgeCount w) (g_readyFlag w) (g_distance w)
          (g_stateMachine w) (icu_timer w) (icu_edge w) (icu_irq w) (out w) v.

(** ** A small state monad over [World] *)

Definition M (A : Type) : Type := World -> A * World.

Definition ret {A} (a : A) : M A := fun w => (a, w).
Definition bind {A B} (m : M A) (k : A -> M B) : M B :=
  fun w => let (a, w') := m w in k a w'.
Definition get {A} (f : World -> A) : M A := fun w => (f w, w).
Definition modify (f : World -> World) : M unit := fun w => (tt, f w).
Definition exec {A} (m : M A) (w : World) : World := snd (m w).
Definition log (c : Call) : M unit :=
  modify (fun w => set_calls (calls w ++ [c]) w).

Declare Scope c_scope.
Delimit Scope c_scope with C.
Notation "x <- m ;; k" := (bind m (fun x => k))
  (at level 61, m at next level, right associativity) : c_scope.
Notation "m ;; k" := (bind m (fun _ => k))
  (at level 61, right associativity) : c_scope.
Open Scope c_scope.

(** ** Collaborators that are outside the translated sources *)

(** Modelled from the spec: the timer/capture peripheral of mcal/icu.c,
    which is not among the sources.  Section 6 gives its interface:
    clearElapsedTime, readElapsedTime, setEdgePolarity and the two calls
    that enable and disable the capture interrupt.  [icu_timer] is the
    elapsed-time counter, [icu_edge] the selected polarity and [icu_irq] the
    enable bit of the edge-detection interrupt. *)
Definition ICU_clearTimerValue : M unit :=
  log C_ICU_clearTimerValue ;; modify (set_icu_timer 0).
Definition ICU_getInputCaptureValue : M Z :=
  t <- get icu_timer ;; log (C_ICU_getInputCaptureValue t) ;; ret t.
Definition ICU_setEdgeDetectionType (e : ICU_EdgeType) : M unit :=
  log (C_ICU_setEdgeDetectionType e) ;; modify (set_icu_edge e).
Definition ICU_interruptOn : M unit :=
  log C_ICU_interruptOn ;; modify (set_icu_irq true).
Definition ICU_interruptOff : M unit :=
  log C_ICU_interruptOff ;; modify (set_icu_irq false).

(** Modelled from the spec: the digital output pin of mcal/gpio.c, here
    always the trigger line ULTRASONIC_TRIGGER_PIN (section 6: setHigh and
    setLow). *)
Definition GPIO_ARR_setPinState (level : bool) : M unit :=
  log (C_GPIO_setPinState level) ;;
  modify (fun w =>
    set_out (mkLevels level (led_red (out w)) (led_green (out w))
                      (led_blue (out w)) (buzzer (out w))) w).

(** Modelled from the spec: the busy-wait delay primitive of util/delay.h
    (section 6: blocks for the given duration, no side effects). *)
Definition _delay_us (n : Z) : M unit :=
  l <- get out ;; log (C_delay_us n l).
Definition _delay_ms (n : Z) : M unit :=
  l <- get out ;; log (C_delay_ms n l).

(** Modelled from the spec: the indicator channels of hal/led.c and the
    buzzer of hal/buzzer.c (section 6: independent on/off outputs). *)
Definition set_led (id : LED_ID) (b : bool) (l : Levels) : Levels :=
  match id with
  | LED_RED_3 =>
      mkLevels (trigger_pin l) b (led_green l) (led_blue l) (buzzer l)
  | LED_GREEN_2 =>
      mkLevels (trigger_pin l) (led_red l) b (led_blue l) (buzzer l)
  | LED_BLUE_1 =>
      mkLevels (trigger_pin l) (led_red l) (led_green l) b (buzzer l)
  end.
Definition set_buzzer (b : bool) (l : Levels) : Levels :=
  mkLevels (trigger_pin l) (led_red l) (led_green l) (led_blue l) b.

Definition LED_on (id : LED_ID) : M unit :=
  log (C_LED_on id) ;; modify (fun w => set_out (set_led id true (out w)) w).
Definition LED_off (id : LED_ID) : M unit :=
  log (C_LED_off id) ;; modify (fun w => set_out (set_led id false (out w)) w).
Definition Buzzer_on : M unit :=
  log C_Buzzer_on ;; modify (fun w => set_out (set_buzzer true (out w)) w).
Definition Buzzer_off : M unit :=
  log C_Buzzer_off ;; modify (fun w => set_out (set_buzzer false (out w)) w).

(** Modelled from the spec: the readout device of hal/lcd.c (section 6:
    moveCursorHome, writeText, writeInteger).  Only the calls are
    recorded. *)
Definition LCD_moveCursor (row col : Z) : M unit :=
  log (C_LCD_moveCursor row col).
Definition LCD_displayString (s : string) : M unit :=
  log (C_LCD_displayString s).
Definition LCD_intgerToString (v : Z) : M unit :=
  log (C_LCD_intgerToString v).

(** ** hal/ultrasonic.c *)

Module Ultrasonic.

(** ultrasonic.c:66-75. *)
Definition Ultrasonic_Trigger : M unit :=
  GPIO_ARR_setPinState true ;;
  _delay_us 10 ;;
  GPIO_ARR_setPinState false.

(** ultrasonic.c:107, the right-hand side of the assignment to
    [l_distance]: C division (truncating), then the cast to [uint16]. *)
Definition ticks_to_distance (ticks : Z) : Z := uint16 (Z.quot ticks 117).

(** ultrasonic.c:122-135, the capture callback. *)
Definition Ultrasonic_edgeProcessing : M unit :=
  c <- get g_edgeCount ;;
  if c =? 0 then
    ICU_clearTimerValue ;;
    ICU_setEdgeDetectionType FALLING ;;
    modify (set_g_edgeCount (uint8 (c + 1)))
  else if c =? 1 then
    t <- ICU_getInputCaptureValue ;;
    modify (set_g_timeHigh (uint16 t)) ;;
    modify (set_g_readyFlag LOGIC_HIGH) ;;
    ICU_setEdgeDetectionType RAISING ;;
    modify (set_g_edgeCount 0)
  else
    ret tt.

(** [onEdge]: the callback as a world transformer. *)
Definition onEdge (w : World) : World := exec Ultrasonic_edgeProcessing w.

(** *** The capture hardware as seen by the program *)

(** Modelled from the spec: what the capture peripheral does on its own
    (mcal/icu.c is not among the sources).  [Tick n]: the timer counts [n]
    ticks (a 16-bit counter).  [Edge]: the selected edge occurs on the echo
    line; the callback registered at ultrasonic.c:49 runs, atomically, when
    the edge-detection interrupt is enabled, and the event is dropped
    otherwise.  The sources do not say whether a disabled unit would rather
    hold the event until it is enabled again; what is proved below about
    disabled edges is only that the callback does not run while the
    interrupt is disabled. *)
Inductive HwEvent := Tick (n : Z) | Edge.

Definition hw_step (e : HwEvent) (w : World) : World :=
  match e with
  | Tick n => set_icu_timer (uint16 (icu_timer w + n)) w
  | Edge => if icu_irq w then onEdge w else w
  end.

(** *** [Ultrasonic_readDistance], statement by statement *)

(** Program points of ultrasonic.c:88-110. *)
Inductive PC :=
| PcTrigger    (* line 92:  Ultrasonic_Trigger();          *)
| PcIntOn      (* line 95:  ICU_interruptOn();             *)
| PcWait       (* line 98:  while (!g_readyFlag);          *)
| PcIntOff     (* line 101: ICU_interruptOff();            *)
| PcClear      (* line 104: g_readyFlag = LOGIC_LOW;       *)
| PcCalc       (* line 107: l_distance = g_timeHigh / 117; *)
| PcReturn     (* line 109: return l_distance;             *)
| PcDone.      (* the call has returned [l_distance]       *)

(** An activation of [Ultrasonic_readDistance] in its world. *)
Record Config := mkConfig {
  pc : PC;
  l_distance : Z;
  world : World
}.

(** Entry: the local is initialised to 0 (line 89). *)
Definition call_readDistance (w : World) : Config := mkConfig PcTrigger 0 w.

(** One foreground statement. *)
Definition fg_step (c : Config) : Config :=
  let w := world c in
  match pc c with
  | PcTrigger => mkConfig PcIntOn (l_distance c) (exec Ultrasonic_Trigger w)
  | PcIntOn => mkConfig PcWait (l_distance c) (exec ICU_interruptOn w)
  | PcWait =>
      if g_readyFlag w =? 0 then c else mkConfig PcIntOff (l_distance c) w
  | PcIntOff => mkConfig PcClear (l_distance c) (exec ICU_interruptOff w)
  | PcClear => mkConfig PcCalc (l_distance c) (set_g_readyFlag LOGIC_LOW w)
  | PcCalc => mkConfig PcReturn (ticks_to_distance (g_timeHigh w)) w
  | PcReturn => mkConfig PcDone (l_distance c) w
  | PcDone => c
  end.

(** A schedule interleaves foreground statements with hardware events. *)
Inductive Action := Fg | Hw (e : HwEvent).

Definition step (a : Action) (c : Config) : Config :=
  match a with
  | Fg => fg_step c
  | Hw e => mkConfig (pc c) (l_distance c) (hw_step e (world c))
  end.

Fixpoint run (sch : list Action) (c : Config) : Config :=
  match sch with
  | [] => c
  | a :: sch' => run sch' (step a c)
  end.

Definition returned (c : Config) : bool :=
  match pc c with PcDone => true | _ => false end.

(** Number of foreground statements in a schedule, and of edges. *)
Fixpoint fg_count (sch : list Action) : nat :=
  match sch with
  | [] => 0
  | Fg :: sch' => S (fg_count sch')
  | Hw _ :: sch' => fg_count sch'
  end.

Fixpoint edge_count (sch : list Action) : nat :=
  match sch with
  | [] => 0
  | Hw Edge :: sch' => S (edge_count sch')
  | _ :: sch' => edge_count sch'
  end.

(** Program points up to the busy-wait: the flag has not been seen set. *)
Definition waiting (c : Config) : bool :=
  match pc c with
  | PcTrigger | PcIntOn | PcWait => true
  | _ => false
  end.

(** Program points after [ICU_interruptOff] has been executed. *)
Definition past_irq_off (c : Config) : bool :=
  match pc c with
  | PcClear | PcCalc | PcReturn | PcDone => true
  | _ => false
  end.

(** Program points after the flag has been cleared at line 104. *)
Definition past_clear (c : Config) : bool :=
  match pc c with
  | PcCalc | PcReturn | PcDone => true
  | _ => false
  end.

(** Program points after the distance has been computed at line 107. *)
Definition past_calc (c : Config) : bool :=
  match pc c with
  | PcReturn | PcDone => true
  | _ => false
  end.

(** Statements left to execute once the wait is over. *)
Definition remaining (p : PC) : nat :=
  match p with
  | PcTrigger => 7 | PcIntOn => 6 | PcWait => 5 | PcIntOff => 4
  | PcClear => 3 | PcCalc => 2 | PcReturn => 1 | PcDone => 0
  end.

(** The foreground owns the shared variables: once [ICU_interruptOff] has
    been executed the interrupt is disabled, once the flag has been cleared
    it is clear, and once the distance has been computed it is the
    conversion of the tick count still in [g_timeHigh]. *)
Definition fg_owns (c : Config) : Prop :=
  (past_irq_off c = true -> icu_irq (world c) = false)
  /\ (past_clear c = true -> g_readyFlag (world c) = 0)
  /\ (past_calc c = true ->
      l_distance c = ticks_to_distance (g_timeHigh (world c))).

(** The flag is set whenever the foreground is still at or before the wait:
    the wait is over. *)
Definition wait_over (c : Config) : Prop :=
  waiting c = true -> g_readyFlag (world c) <> 0.

(** The world after the initialisers of the globals (ultrasonic.c:14-31,
    app.c:107-116), the configuration of ultrasonic.c:45 and the switching
    off of app.c:134-137; [irq] is the state in which the initialisation of
    the capture unit leaves its interrupt enable. *)
Definition boot (irq : bool) : World :=
  mkWorld 0 0 0 0 IDLE 0 RAISING irq
          (mkLevels false false false false false) [].


(** The flag is set when the foreground has left the wait and has not yet
    cleared the flag. *)
Definition sample_pending (c : Config) : Prop :=
  pc c = PcIntOff \/ pc c = PcClear -> g_readyFlag (world c) <> 0.

(** Armed, in the words of section 4.1: rising phase, flag clear. *)
Definition armed (w : World) : Prop :=
  g_edgeCount w = 0 /\ g_readyFlag w = 0.


End Ultrasonic.

(** ** app/app.c *)

Module App.

(** app.c:7-10. *)
Definition DISTANCE_DANGER : Z := 5.
Definition DISTANCE_WARNING_MAX : Z := 10.
Definition DISTANCE_SAFE_MAX : Z := 15.
Definition DISTANCE_DETECTED_MAX : Z := 20.

(** app.c:271-276. *)
Definition LCD_dispDataNorm : M unit :=
  LCD_moveCursor 0 0 ;;
  LCD_displayString "Distance= " ;;
  d <- get g_distance ;;
  LCD_intgerToString d ;;
  LCD_displayString "cm".

(** app.c:284-287. *)
Definition LCD_dispDataDanger : M unit :=
  LCD_moveCursor 0 0 ;;
  LCD_displayString "      STOP      ".

(** app.c:195-207. *)
Definition handleDangerState : M unit :=
  LCD_dispDataDanger ;;
  Buzzer_on ;;
  LED_on LED_RED_3 ;;
  LED_on LED_GREEN_2 ;;
  LED_on LED_BLUE_1 ;;
  _delay_ms 200 ;;
  Buzzer_off ;;
  LED_off LED_RED_3 ;;
  LED_off LED_GREEN_2 ;;
  LED_off LED_BLUE_1 ;;
  _delay_ms 200.

(** app.c:215-221. *)
Definition handleWarningState : M unit :=
  LCD_dispDataNorm ;;
  Buzzer_off ;;
  LED_on LED_RED_3 ;;
  LED_on LED_GREEN_2 ;;
  LED_on LED_BLUE_1.

(** app.c:229-235. *)
Definition handleSafeState : M unit :=
  LCD_dispDataNorm ;;
  Buzzer_off ;;
  LED_on LED_RED_3 ;;
  LED_on LED_GREEN_2 ;;
  LED_off LED_BLUE_1.

(** app.c:243-249. *)
Definition handleDetectedState : M unit :=
  LCD_dispDataNorm ;;
  Buzzer_off ;;
  LED_on LED_RED_3 ;;
  LED_off LED_GREEN_2 ;;
  LED_off LED_BLUE_1.

(** app.c:256-262. *)
Definition handleIdleState : M unit :=
  LCD_dispDataNorm ;;
  Buzzer_off ;;
  LED_off LED_RED_3 ;;
  LED_off LED_GREEN_2 ;;
  LED_off LED_BLUE_1.

(** app.c:157-167, the cascade that chooses the band. *)
Definition classify (distance : Z) : STATE_MACHINE :=
  if distance <=? DISTANCE_DANGER then DANGER
  else if distance <=? DISTANCE_WARNING_MAX then WARNING
  else if distance <=? DISTANCE_SAFE_MAX then SAFE
  else if distance <=? DISTANCE_DETECTED_MAX then DETECTED
  else IDLE.

(** app.c:170-186, the switch that calls the handler of a band. *)
Definition render (s : STATE_MACHINE) : M unit :=
  match s with
  | DANGER => handleDangerState
  | WARNING => handleWarningState
  | SAFE => handleSafeState
  | DETECTED => handleDetectedState
  | IDLE => handleIdleState
  end.

(** app.c:155-187. *)
Definition StateMachineHandler : M unit :=
  d <- get g_distance ;;
  modify (set_g_stateMachine (classify d)) ;;
  s <- get g_stateMachine ;;
  render s.

(** app.c:142-145, the part of one pass of the main loop that follows the
    return of [Ultrasonic_readDistance] with value [d]. *)
Definition main_after_read (d : Z) : M unit :=
  modify (set_g_distance d) ;;
  StateMachineHandler.

(** *** The band table of the specification *)

(** The conditions of section 4.3, written as the table has them; compared
    with [classify] below. *)
Definition spec_band_condition (b : STATE_MACHINE) (distance : Z) : bool :=
  match b with
  | DANGER => distance <=? 5
  | WARNING => (6 <=? distance) && (distance <=? 10)
  | SAFE => (11 <=? distance) && (distance <=? 15)
  | DETECTED => (16 <=? distance) && (distance <=? 20)
  | IDLE => 20 <? distance
  end.

Definition all_bands : list STATE_MACHINE :=
  [DANGER; WARNING; SAFE; DETECTED; IDLE].

(** How many of the five conditions hold at a distance. *)
Definition bands_matching (distance : Z) : nat :=
  List.length (filter (fun b => spec_band_condition b distance) all_bands).

(** *** Observing one rendering *)

(** Readout of section 4.4: the fixed message or the number with its unit. *)
Inductive Readout := STOP_message | Numeric (d : Z).

(** What the LCD calls of a log show. *)
Definition readout_of (cs : list Call) : option Readout :=
  match filter (fun c => match c with
                         | C_LCD_moveCursor _ _ | C_LCD_displayString _
                         | C_LCD_intgerToString _ => true
                         | _ => false end) cs with
  | [C_LCD_moveCursor 0 0; C_LCD_displayString "      STOP      "] =>
      Some STOP_message
  | [C_LCD_moveCursor 0 0; C_LCD_displayString "Distance= ";
     C_LCD_intgerToString d; C_LCD_displayString "cm"] => Some (Numeric d)
  | _ => None
  end.

(** The (R, G, B, buzzer) tuple on the pins. *)
Definition rgb_buzzer (l : Levels) : bool * bool * bool * bool :=
  (led_red l, led_green l, led_blue l, buzzer l).

(** The phases of a log: duration and (R, G, B, buzzer) of every
    millisecond delay, in order. *)
Fixpoint phases (cs : list Call) : list (Z * (bool * bool * bool * bool)) :=
  match cs with
  | [] => []
  | C_delay_ms n held :: cs' => (n, rgb_buzzer held) :: phases cs'
  | _ :: cs' => phases cs'
  end.

(** Whether a log switches the buzzer on. *)
Definition buzzer_switched_on (cs : list Call) : bool :=
  existsb (fun c => match c with C_Buzzer_on => true | _ => false end) cs.

(** The calls a computation makes from [w], in order: its log when it is
    started with an empty one (nothing reads the log; see
    [AlertFacts.render_log] for the log of a run from [w] itself). *)
Definition emitted {A} (m : M A) (w : World) : list Call :=
  calls (exec m (set_calls [] w)).

End App.

(** ** The main loop, pass by pass *)

Module Main.
Import Ultrasonic.
Import App.

(** The values of the enumerators of app.c:92-98, in declaration order. *)
Definition STATE_MACHINE_value (s : STATE_MACHINE) : Z :=
  match s with
  | IDLE => 0 | DETECTED => 1 | SAFE => 2 | WARNING => 3 | DANGER => 4
  end.

(** app.c:134-137, the switching off that follows the four
    initialisation calls. *)
Definition main_outputs_off : M unit :=
  Buzzer_off ;;
  LED_off LED_RED_3 ;;
  LED_off LED_GREEN_2 ;;
  LED_off LED_BLUE_1.

(** app.c:128-137.  The four initialisation calls of lines 128-131 only run
    code of mcal/ and of the other hal/ drivers, none of it among the
    sources; they are the parameter [drivers_init]. *)
Definition main_init (drivers_init : M unit) : M unit :=
  drivers_init ;;
  main_outputs_off.

(** app.c:140-146, one pass of the loop: the call of
    [Ultrasonic_readDistance] runs against the schedule [sch]; if it has
    returned, its value is stored and rendered.  [None]: the call is still
    waiting when the schedule ends. *)
Definition main_pass (sch : list Action) (w : World) : option World :=
  let c := run sch (call_readDistance w) in
  if returned c
  then Some (exec (main_after_read (l_distance c)) (world c))
  else None.

(** The first passes of [for (;;)], one schedule per pass. *)
Fixpoint main_loop (schs : list (list Action)) (w : World) : option World :=
  match schs with
  | [] => Some w
  | sch :: schs' =>
      match main_pass sch w with
      | Some w' => main_loop schs' w'
      | None => None
      end
  end.

(** Renderings one after the other (app.c:170-186 over several passes). *)
Fixpoint render_all (bands : list STATE_MACHINE) (w : World) : World :=
  match bands with
  | [] => w
  | s :: bands' => render_all bands' (exec (render s) w)
  end.

(** The calls of a log that go to the display, the indicators or the
    buzzer. *)
Definition is_alert_call (c : Call) : bool :=
  match c with
  | C_LCD_moveCursor _ _ | C_LCD_displayString _ | C_LCD_intgerToString _
  | C_LED_on _ | C_LED_off _ | C_Buzzer_on | C_Buzzer_off
  | C_delay_ms _ _ => true
  | _ => false
  end.

Definition alert_calls (cs : list Call) : list Call := filter is_alert_call cs.

(** The polarity selected in the capture unit agrees with the phase of the
    counter: rising when 0, falling when 1. *)
Definition polarity_matches (w : World) : Prop :=
  (g_edgeCount w = 0 /\ icu_edge w = RAISING)
  \/ (g_edgeCount w = 1 /\ icu_edge w = FALLING).

(** [g_timeHigh] holds a value of its type. *)
Definition timeHigh_in_range (w : World) : Prop :=
  0 <= g_timeHigh w < 65536.

(** A measurement with one echo pulse of [n] ticks: trigger, interrupt on,
    [k1] polls, [m] ticks of the free-running timer, the rising edge, [k2]
    polls, the [n] ticks of the pulse, [k3] polls, the falling edge, and
    the five statements from the last poll to the return. *)
Definition clean_cycle (k1 k2 k3 : nat) (m n : Z) : list Action :=
  [Fg; Fg] ++ repeat Fg k1 ++ [Hw (Tick m); Hw Edge] ++ repeat Fg k2
    ++ [Hw (Tick n)] ++ repeat Fg k3 ++ [Hw Edge] ++ repeat Fg 5.

(** The same with one more edge taken before the foreground leaves the
    wait. *)
Definition late_edge_cycle (n : Z) : list Action :=
  [Fg; Fg; Hw Edge; Hw (Tick n); Hw Edge; Hw Edge; Fg; Fg; Fg; Fg; Fg].

(** A call during which [m] ticks pass and then a single edge arrives. *)
Definition single_edge_cycle (m : Z) : list Action :=
  [Fg; Fg; Hw (Tick m); Hw Edge; Fg; Fg; Fg; Fg; Fg].

End Main.

(** * Properties *)

Module AppFacts.
Import App.

(** The band stored by [StateMachineHandler] is [classify] of the distance:
    no handler writes [g_stateMachine] or [g_distance]. *)
Lemma StateMachineHandler_band (w : World) :
  g_stateMachine (exec StateMachineHandler w) = classify (g_distance w)
  /\ g_distance (exec StateMachineHandler w) = g_distance w.
Proof.
  unfold StateMachineHandler, exec, bind, get, modify; cbn.
  destruct (classify (g_distance w)); split; reflexivity.
Qed.

(** C1 (boundary exactness): the cascade of [StateMachineHandler] sends 5 to
    DANGER, 6 and 10 to WARNING, 11 and 15 to SAFE, 16 and 20 to DETECTED
    and 21 to IDLE. *)
Theorem classify_boundaries :
  classify 5 = DANGER /\ classify 6 = WARNING /\ classify 10 = WARNING
  /\ classify 11 = SAFE /\ classify 15 = SAFE
  /\ classify 16 = DETECTED /\ classify 20 = DETECTED
  /\ classify 21 = IDLE.
Proof. repeat split; reflexivity. Qed.

Ltac split_leb :=
  repeat match goal with
         | |- context [?a <=? ?b] => destruct (Z.leb_spec a b)
         | |- context [?a <? ?b] => destruct (Z.ltb_spec a b)
         end.

(** [classify] returns a band exactly when the table gives that band. *)
Lemma classify_spec_band (d : Z) (b : STATE_MACHINE) :
  classify d = b <-> spec_band_condition b d = true.
Proof.
  unfold classify, DISTANCE_DANGER, DISTANCE_WARNING_MAX, DISTANCE_SAFE_MAX,
    DISTANCE_DETECTED_MAX.
  destruct b; cbn [spec_band_condition]; split_leb; cbn;
    split; intro; try reflexivity; try discriminate; lia.
Qed.

(** C2 (totality and partition): at every non-negative distance the cascade
    returns the one band whose table condition holds, and exactly one of
    the five conditions holds there. *)
Theorem classify_partition (d : Z) (Hd : 0 <= d) :
  (forall b, classify d = b <-> spec_band_condition b d = true)
  /\ spec_band_condition (classify d) d = true
  /\ (forall b1 b2, spec_band_condition b1 d = true ->
                    spec_band_condition b2 d = true -> b1 = b2)
  /\ bands_matching d = 1%nat.
Proof.
  split; [intro b; apply classify_spec_band|].
  split; [apply classify_spec_band; reflexivity|].
  split.
  - intros b1 b2 H1 H2.
    apply classify_spec_band in H1, H2. congruence.
  - unfold bands_matching, all_bands; cbn [filter spec_band_condition].
    split_leb; cbn; try reflexivity; lia.
Qed.

Lemma classify_partition_witness :
  0 <= 12 /\ bands_matching 12 = 1%nat /\ classify 12 = SAFE.
Proof.
  assert (H12 : 0 <= 12) by lia.
  destruct (classify_partition 12 H12) as (Hband & _ & _ & Hone).
  split; [exact H12|].
  split; [exact Hone|].
  apply Hband; reflexivity.
Defined.

End AppFacts.

Module AlertFacts.
Import App.

(** Evaluates a handler on a world given field by field.  Call-by-need
    keeps the intermediate worlds shared. *)
Ltac run_handler := lazy -[app Z.leb]; repeat rewrite <- app_assoc.

(** The log after rendering from [w] is the log of [w] followed by the
    calls of the rendering; the pins do not depend on the log. *)
Lemma render_log (s : STATE_MACHINE) (w : World) :
  calls (exec (render s) w) = calls w ++ emitted (render s) w
  /\ out (exec (render s) w) = out (exec (render s) (set_calls [] w)).
Proof.
  destruct w as [th ec rf gd sm tm ed irq o cs].
  destruct s; split; run_handler; reflexivity.
Qed.

(** [StateMachineHandler] renders the band of the current distance. *)
Lemma StateMachineHandler_renders (w : World) :
  exec StateMachineHandler w
  = exec (render (classify (g_distance w)))
         (set_g_stateMachine (classify (g_distance w)) w).
Proof. reflexivity. Qed.

(** C6 (output mapping): from any world, rendering a band produces the row
    of the table of section 4.4.  DANGER shows the STOP message and goes
    through exactly two 200 ms phases, everything on (buzzer included) and
    then everything off; the other four bands show the numeric distance,
    leave (R, G, B) at (on, on, on), (on, on, off), (on, off, off) and
    (off, off, off), have no timed phase, never switch the buzzer on and
    leave it off. *)
Theorem render_table (w : World) :
  (readout_of (emitted (render DANGER) w) = Some STOP_message
   /\ phases (emitted (render DANGER) w)
      = [(200, (true, true, true, true)); (200, (false, false, false, false))]
   /\ rgb_buzzer (out (exec (render DANGER) w)) = (false, false, false, false))
  /\ (readout_of (emitted (render WARNING) w) = Some (Numeric (g_distance w))
      /\ rgb_buzzer (out (exec (render WARNING) w)) = (true, true, true, false)
      /\ phases (emitted (render WARNING) w) = []
      /\ buzzer_switched_on (emitted (render WARNING) w) = false)
  /\ (readout_of (emitted (render SAFE) w) = Some (Numeric (g_distance w))
      /\ rgb_buzzer (out (exec (render SAFE) w)) = (true, true, false, false)
      /\ phases (emitted (render SAFE) w) = []
      /\ buzzer_switched_on (emitted (render SAFE) w) = false)
  /\ (readout_of (emitted (render DETECTED) w) = Some (Numeric (g_distance w))
      /\ rgb_buzzer (out (exec (render DETECTED) w))
         = (true, false, false, false)
      /\ phases (emitted (render DETECTED) w) = []
      /\ buzzer_switched_on (emitted (render DETECTED) w) = false)
  /\ (readout_of (emitted (render IDLE) w) = Some (Numeric (g_distance w))
      /\ rgb_buzzer (out (exec (render IDLE) w)) = (false, false, false, false)
      /\ phases (emitted (render IDLE) w) = []
      /\ buzzer_switched_on (emitted (render IDLE) w) = false).
Proof.
  destruct w as [th ec rf gd sm tm ed irq o cs].
  repeat split; reflexivity.
Qed.


End AlertFacts.

Module EdgeCaptureFacts.
Import Ultrasonic.

(** Evaluates the program on a world given field by field, leaving the
    arithmetic on symbolic values alone. *)
Ltac eval_world :=
  lazy -[Z.eqb Z.add Z.modulo Z.quot Z.div uint8 uint16 ticks_to_distance app].

(** *** The three branches of the callback *)

Lemma onEdge_rising (w : World) :
  g_edgeCount w = 0 ->
  onEdge w
  = mkWorld (g_timeHigh w) 1 (g_readyFlag w) (g_distance w) (g_stateMachine w)
            0 FALLING (icu_irq w) (out w)
            ((calls w ++ [C_ICU_clearTimerValue])
               ++ [C_ICU_setEdgeDetectionType FALLING]).
Proof.
  destruct w as [th ec rf gd sm tm ed irq o cs]; cbn [g_edgeCount].
  intros ->. reflexivity.
Qed.

Lemma onEdge_falling (w : World) :
  g_edgeCount w = 1 ->
  onEdge w
  = mkWorld (uint16 (icu_timer w)) 0 LOGIC_HIGH (g_distance w)
            (g_stateMachine w) (icu_timer w) RAISING (icu_irq w) (out w)
            ((calls w ++ [C_ICU_getInputCaptureValue (icu_timer w)])
               ++ [C_ICU_setEdgeDetectionType RAISING]).
Proof.
  destruct w as [th ec rf gd sm tm ed irq o cs]; cbn [g_edgeCount].
  intros ->. reflexivity.
Qed.

Lemma onEdge_other (w : World) :
  g_edgeCount w <> 0 -> g_edgeCount w <> 1 -> onEdge w = w.
Proof.
  destruct w as [th ec rf gd sm tm ed irq o cs]; cbn [g_edgeCount].
  intros H0 H1. eval_world.
  destruct (Z.eqb_spec ec 0); [contradiction|].
  destruct (Z.eqb_spec ec 1); [contradiction|]. reflexivity.
Qed.

(** The callback never clears the flag and never touches the copies that
    the foreground made. *)
Lemma onEdge_frame (w : World) :
  (g_readyFlag w <> 0 -> g_readyFlag (onEdge w) <> 0)
  /\ g_distance (onEdge w) = g_distance w
  /\ g_stateMachine (onEdge w) = g_stateMachine w
  /\ icu_irq (onEdge w) = icu_irq w
  /\ out (onEdge w) = out w.
Proof.
  destruct (Z.eq_dec (g_edgeCount w) 0) as [H0|H0].
  - rewrite (onEdge_rising w H0); cbn. repeat split; auto.
  - destruct (Z.eq_dec (g_edgeCount w) 1) as [H1|H1].
    + rewrite (onEdge_falling w H1); cbn. repeat split; auto.
      intros _. discriminate.
    + rewrite (onEdge_other w H0 H1). repeat split; auto.
Qed.

(** C4 (capture cycle): from the rising phase with the flag clear, the
    first callback leaves the flag clear and selects the falling edge; after
    [n] ticks the second callback sets the flag, stores [n] in [g_timeHigh]
    and is back in the rising phase.  Of the two calls exactly the second
    sets the flag. *)
Theorem edge_capture_cycle (w : World) (n : Z)
    (Hphase : g_edgeCount w = 0) (Hready : g_readyFlag w = 0)
    (Hn : 0 <= n < 65536) :
  let w1 := onEdge w in
  let w2 := onEdge (hw_step (Tick n) w1) in
  (g_readyFlag w1 = 0 /\ g_edgeCount w1 = 1 /\ icu_edge w1 = FALLING)
  /\ (g_readyFlag w2 = 1 /\ g_timeHigh w2 = n
      /\ g_edgeCount w2 = 0 /\ icu_edge w2 = RAISING).
Proof.
  intros w1 w2. subst w2 w1.
  rewrite (onEdge_rising w Hphase).
  split; [cbn; auto|].
  rewrite onEdge_falling by reflexivity. cbn.
  repeat split.
  unfold uint16. rewrite (Z.mod_small n) by lia. apply Z.mod_small; lia.
Qed.

Lemma edge_capture_cycle_witness :
  g_edgeCount (boot true) = 0 /\ g_readyFlag (boot true) = 0
  /\ 0 <= 1170 < 65536
  /\ g_timeHigh (onEdge (hw_step (Tick 1170) (onEdge (boot true)))) = 1170.
Proof.
  assert (Hn : 0 <= 1170 < 65536) by lia.
  split; [reflexivity|]. split; [reflexivity|]. split; [exact Hn|].
  apply (edge_capture_cycle (boot true) 1170 eq_refl eq_refl Hn).
Defined.

(** *** What one step leaves alone *)

Lemma fg_step_frame (c : Config) :
  g_edgeCount (world (fg_step c)) = g_edgeCount (world c)
  /\ g_timeHigh (world (fg_step c)) = g_timeHigh (world c)
  /\ g_distance (world (fg_step c)) = g_distance (world c).
Proof.
  destruct c as [p l w]; destruct w as [th ec rf gd sm tm ed irq o cs].
  destruct p; eval_world; try (repeat split; reflexivity).
  destruct (rf =? 0); repeat split; reflexivity.
Qed.

Lemma hw_step_frame (e : HwEvent) (w : World) :
  icu_irq (hw_step e w) = icu_irq w
  /\ g_distance (hw_step e w) = g_distance w
  /\ (g_readyFlag w <> 0 -> g_readyFlag (hw_step e w) <> 0).
Proof.
  destruct e as [n|]; cbn [hw_step].
  - destruct w; cbn; auto.
  - destruct (icu_irq w) eqn:Hirq; [|auto].
    destruct (onEdge_frame w) as (Hf & Hd & _ & Hi & _).
    rewrite Hi, Hd. auto.
Qed.

(** With the edge-detection interrupt disabled the hardware cannot reach the
    three variables of the driver. *)
Lemma hw_step_gated (e : HwEvent) (w : World) :
  icu_irq w = false ->
  g_timeHigh (hw_step e w) = g_timeHigh w
  /\ g_readyFlag (hw_step e w) = g_readyFlag w
  /\ g_edgeCount (hw_step e w) = g_edgeCount w.
Proof.
  intros Hirq. destruct e as [n|]; cbn [hw_step].
  - destruct w; cbn; auto.
  - rewrite Hirq. auto.
Qed.

Lemma onEdge_toggles (w : World) :
  g_edgeCount w = 0 \/ g_edgeCount w = 1 ->
  (g_edgeCount (onEdge w) = 0 \/ g_edgeCount (onEdge w) = 1)
  /\ g_edgeCount (onEdge w) = 1 - g_edgeCount w.
Proof.
  intros [H|H].
  - rewrite (onEdge_rising w H), H; cbn. auto.
  - rewrite (onEdge_falling w H), H; cbn. auto.
Qed.

Lemma step_edge_phase (a : Action) (c : Config) :
  g_edgeCount (world c) = 0 \/ g_edgeCount (world c) = 1 ->
  g_edgeCount (world (step a c)) = 0 \/ g_edgeCount (world (step a c)) = 1.
Proof.
  intros H. destruct a as [|[n|]]; cbn [step world hw_step].
  - destruct (fg_step_frame c) as (-> & _). exact H.
  - destruct (world c); exact H.
  - destruct (icu_irq (world c)); [|exact H].
    apply onEdge_toggles, H.
Qed.

Lemma run_edge_phase (sch : list Action) (c : Config) :
  g_edgeCount (world c) = 0 \/ g_edgeCount (world c) = 1 ->
  g_edgeCount (world (run sch c)) = 0 \/ g_edgeCount (world (run sch c)) = 1.
Proof.
  revert c. induction sch as [|a sch IH]; intros c H; cbn [run].
  - exact H.
  - apply IH, step_edge_phase, H.
Qed.

Lemma iter_onEdge_phase (n : nat) (w : World) :
  g_edgeCount w = 0 ->
  g_edgeCount (Nat.iter n onEdge w) = if Nat.even n then 0 else 1.
Proof.
  intros H0. induction n as [|n IH]; [exact H0|].
  change (Nat.iter (S n) onEdge w) with (onEdge (Nat.iter n onEdge w)).
  rewrite Nat.even_succ, <- Nat.negb_even.
  destruct (Nat.even n); cbn [negb].
  - rewrite (onEdge_rising _ IH). reflexivity.
  - rewrite (onEdge_falling _ IH). reflexivity.
Qed.

(** C10 (edge-count invariant): started with [g_edgeCount = 0], the counter
    is 0 or 1 after any interleaving of foreground statements, timer ticks
    and edges; a callback run in such a state toggles it (0 to 1 on the
    rising branch, 1 to 0 on the falling branch); after [k] callbacks it is
    0 for even [k] and 1 for odd [k]. *)
Theorem edge_count_invariant (c : Config) (sch : list Action) (k : nat)
    (Hinit : g_edgeCount (world c) = 0) :
  let w := world (run sch c) in
  (g_edgeCount w = 0 \/ g_edgeCount w = 1)
  /\ (g_edgeCount (onEdge w) = 0 \/ g_edgeCount (onEdge w) = 1)
  /\ g_edgeCount (onEdge w) = 1 - g_edgeCount w
  /\ g_edgeCount (Nat.iter k onEdge (world c)) = (if Nat.even k then 0 else 1).
Proof.
  intros w.
  assert (Hw : g_edgeCount w = 0 \/ g_edgeCount w = 1)
    by (apply run_edge_phase; left; exact Hinit).
  split; [exact Hw|].
  split; [apply onEdge_toggles, Hw|].
  split; [apply onEdge_toggles, Hw|].
  apply iter_onEdge_phase, Hinit.
Qed.

Lemma edge_count_invariant_witness :
  g_edgeCount (world (call_readDistance (boot true))) = 0
  /\ g_edgeCount
       (world (run [Hw Edge; Fg; Hw (Tick 5); Hw Edge; Hw Edge]
                   (call_readDistance (boot true)))) = 1
  /\ g_edgeCount (Nat.iter 3 onEdge (boot true)) = 1.
Proof.
  pose proof (edge_count_invariant (call_readDistance (boot true))
                [Hw Edge; Fg; Hw (Tick 5); Hw Edge; Hw Edge] 3 eq_refl)
    as (_ & _ & _ & Hk).
  split; [reflexivity|]. split; [reflexivity|]. exact Hk.
Defined.

(** C8 (double pulse): an edge pair that arrives while the flag is still
    set goes through the same two branches as any other pair; the only calls
    made are those on the capture unit, the flag stays set and
    [g_timeHigh] is overwritten with the new tick count.  The values the
    foreground already took, [l_distance] and [g_distance], are not written
    by any hardware event. *)
Theorem double_pulse_overwrites (w : World) (n : Z) (c : Config)
    (evs : list HwEvent)
    (Hphase : g_edgeCount w = 0) (Hready : g_readyFlag w = 1)
    (Hn : 0 <= n < 65536) :
  let w2 := onEdge (hw_step (Tick n) (onEdge w)) in
  g_timeHigh w2 = n /\ g_readyFlag w2 = 1 /\ g_edgeCount w2 = 0
  /\ calls w2 = calls w ++ [C_ICU_clearTimerValue;
                            C_ICU_setEdgeDetectionType FALLING;
                            C_ICU_getInputCaptureValue n;
                            C_ICU_setEdgeDetectionType RAISING]
  /\ l_distance (run (map Hw evs) c) = l_distance c
  /\ g_distance (world (run (map Hw evs) c)) = g_distance (world c).
Proof.
  intros w2. subst w2.
  assert (Hwrap : uint16 n = n) by (apply Z.mod_small; lia).
  rewrite (onEdge_rising w Hphase).
  rewrite onEdge_falling by reflexivity. cbn.
  rewrite !Hwrap.
  split; [reflexivity|].
  split; [reflexivity|]. split; [reflexivity|].
  split; [rewrite <- !app_assoc; reflexivity|].
  revert c. induction evs as [|e evs IH]; intros c; cbn [map run].
  - split; reflexivity.
  - destruct (IH (step (Hw e) c)) as [-> ->]. cbn [step l_distance world].
    split; [reflexivity|]. apply hw_step_frame.
Qed.

Lemma double_pulse_overwrites_witness :
  g_edgeCount (set_g_timeHigh 585 (set_g_readyFlag 1 (boot true))) = 0
  /\ g_readyFlag (set_g_timeHigh 585 (set_g_readyFlag 1 (boot true))) = 1
  /\ 0 <= 2400 < 65536
  /\ g_timeHigh
       (onEdge (hw_step (Tick 2400)
                  (onEdge (set_g_timeHigh 585
                             (set_g_readyFlag 1 (boot true)))))) = 2400.
Proof.
  assert (Hn : 0 <= 2400 < 65536) by lia.
  split; [reflexivity|]. split; [reflexivity|]. split; [exact Hn|].
  apply (double_pulse_overwrites
           (set_g_timeHigh 585 (set_g_readyFlag 1 (boot true))) 2400
           (call_readDistance (boot true)) [Edge] eq_refl eq_refl Hn).
Defined.

End EdgeCaptureFacts.

Module RangingFacts.
Import Ultrasonic.
Import EdgeCaptureFacts.

Lemma run_app (s1 s2 : list Action) (c : Config) :
  run (s1 ++ s2) c = run s2 (run s1 c).
Proof.
  revert c. induction s1 as [|a s1 IH]; intros c; [reflexivity|].
  cbn [app run]. apply IH.
Qed.

(** *** Conversion *)

(** C3 (conversion): for every 16-bit tick count the value computed at line
    107 is the quotient of the truncating division by 117, that is the
    [d] with [117 * d <= ticks < 117 * d + 117]; it is what the call returns
    two statements later; 0, 117, 1170 and 200 ticks give 0, 1, 10 and 1. *)
Theorem ticks_to_distance_exact (t : Z) (Ht : 0 <= t < 65536) :
  ticks_to_distance t = Z.quot t 117
  /\ 117 * ticks_to_distance t <= t < 117 * ticks_to_distance t + 117
  /\ (forall c, pc c = PcCalc -> g_timeHigh (world c) = t ->
        returned (run [Fg; Fg] c) = true
        /\ l_distance (run [Fg; Fg] c) = Z.quot t 117)
  /\ ticks_to_distance 0 = 0 /\ ticks_to_distance 117 = 1
  /\ ticks_to_distance 1170 = 10 /\ ticks_to_distance 200 = 1.
Proof.
  assert (Hq : ticks_to_distance t = Z.quot t 117).
  { unfold ticks_to_distance, uint16.
    rewrite Z.quot_div_nonneg by lia.
    apply Z.mod_small.
    split; [apply Z.div_pos; lia | apply Z.div_lt_upper_bound; lia]. }
  split; [exact Hq|].
  split.
  { rewrite Hq, Z.quot_div_nonneg by lia.
    pose proof (Z.mul_div_le t 117 ltac:(lia)).
    pose proof (Z.mul_succ_div_gt t 117 ltac:(lia)). lia. }
  split; [|repeat split; reflexivity].
  intros [p l w] Hpc Hth; cbn in Hpc, Hth; subst p.
  cbn [run step fg_step pc world l_distance]. rewrite Hth.
  split; [reflexivity | exact Hq].
Qed.

Lemma ticks_to_distance_exact_witness :
  0 <= 200 < 65536 /\ ticks_to_distance 200 = Z.quot 200 117.
Proof.
  assert (Ht : 0 <= 200 < 65536) by lia.
  split; [exact Ht|]. apply (ticks_to_distance_exact 200 Ht).
Defined.

(** *** The foreground owns the variables after the interrupt is off *)

Lemma step_fg_owns (a : Action) (c : Config) :
  fg_owns c -> fg_owns (step a c).
Proof.
  unfold fg_owns. destruct a as [|e]; cbn [step].
  - destruct c as [p l w]; destruct w as [th ec rf gd sm tm ed irq o cs].
    destruct p; eval_world; try destruct (rf =? 0);
      intros (HI & HK & HL); repeat split; intros H; try discriminate H;
      try reflexivity; auto.
  - intros (HI & HK & HL).
    change (past_irq_off (mkConfig (pc c) (l_distance c) (hw_step e (world c))))
      with (past_irq_off c).
    change (past_clear (mkConfig (pc c) (l_distance c) (hw_step e (world c))))
      with (past_clear c).
    change (past_calc (mkConfig (pc c) (l_distance c) (hw_step e (world c))))
      with (past_calc c).
    cbn [world l_distance].
    assert (Hoff : past_clear c = true \/ past_calc c = true ->
                   icu_irq (world c) = false).
    { intros H. apply HI. unfold past_clear, past_calc in H.
      unfold past_irq_off.
      destruct (pc c); destruct H as [H|H]; try discriminate H; reflexivity. }
    split; [|split].
    + intros H. destruct (hw_step_frame e (world c)) as (-> & _). auto.
    + intros H.
      destruct (hw_step_gated e (world c) (Hoff (or_introl H))) as (_ & -> & _).
      auto.
    + intros H.
      destruct (hw_step_gated e (world c) (Hoff (or_intror H))) as (-> & _).
      auto.
Qed.

Lemma run_fg_owns (sch : list Action) (c : Config) :
  fg_owns c -> fg_owns (run sch c).
Proof.
  revert c. induction sch as [|a sch IH]; intros c H; cbn [run].
  - exact H.
  - apply IH, step_fg_owns, H.
Qed.

Lemma call_fg_owns (w : World) : fg_owns (call_readDistance w).
Proof. repeat split; intros H; discriminate H. Qed.

(** Hardware events while the interrupt is disabled leave the call and
    the three variables of the driver alone. *)
Lemma run_hw_gated (evs : list HwEvent) (c : Config) :
  icu_irq (world c) = false ->
  pc (run (map Hw evs) c) = pc c
  /\ l_distance (run (map Hw evs) c) = l_distance c
  /\ icu_irq (world (run (map Hw evs) c)) = false
  /\ g_timeHigh (world (run (map Hw evs) c)) = g_timeHigh (world c)
  /\ g_readyFlag (world (run (map Hw evs) c)) = g_readyFlag (world c)
  /\ g_edgeCount (world (run (map Hw evs) c)) = g_edgeCount (world c).
Proof.
  revert c. induction evs as [|e evs IH]; intros c Hoff; cbn [map run].
  - repeat split; auto.
  - destruct (hw_step_gated e (world c) Hoff) as (Ht & Hf & He).
    destruct (hw_step_frame e (world c)) as (Hi & _).
    destruct (IH (step (Hw e) c)) as (H1 & H2 & H3 & H4 & H5 & H6).
    { cbn [step world]. rewrite Hi. exact Hoff. }
    cbn [step world pc l_distance] in *.
    rewrite H1, H2, H4, H5, H6. repeat split; auto.
Qed.

(** Which foreground statements write the flag and the local. *)
Lemma fg_step_writes (c : Config) :
  (g_readyFlag (world (fg_step c)) = g_readyFlag (world c) \/ pc c = PcClear)
  /\ (l_distance (fg_step c) = l_distance c \/ pc c = PcCalc).
Proof.
  destruct c as [p l w]; destruct w as [th ec rf gd sm tm ed irq o cs].
  destruct p; eval_world; try destruct (rf =? 0); auto.
Qed.

Lemma step_sample_pending (a : Action) (c : Config) :
  sample_pending c -> sample_pending (step a c).
Proof.
  unfold sample_pending. destruct c as [p l w]. destruct a as [|e]; cbn [step].
  - destruct w as [th ec rf gd sm tm ed irq o cs].
    destruct p; eval_world; intros H [H'|H']; try discriminate H';
      try (apply H; auto; fail).
    + destruct (Z.eqb_spec rf 0) as [Hz|Hz]; [discriminate H' | exact Hz].
    + destruct (rf =? 0); discriminate H'.
  - cbn [pc world l_distance]. intros H H'. apply hw_step_frame, H, H'.
Qed.

Lemma run_sample_pending (sch : list Action) (c : Config) :
  sample_pending c -> sample_pending (run sch c).
Proof.
  revert c. induction sch as [|a sch IH]; intros c H; cbn [run].
  - exact H.
  - apply IH, step_sample_pending, H.
Qed.

(** The three statements after the wait, each followed by hardware
    events. *)
Lemma after_interruptOff (evs : list HwEvent) (c : Config) :
  pc c = PcIntOff ->
  let c1 := run ([Fg] ++ map Hw evs) c in
  pc c1 = PcClear /\ icu_irq (world c1) = false
  /\ g_timeHigh (world c1) = g_timeHigh (world c)
  /\ g_readyFlag (world c1) = g_readyFlag (world c)
  /\ l_distance c1 = l_distance c.
Proof.
  intros Hpc c1. subst c1. rewrite run_app. cbn [run step].
  destruct c as [p l w]; cbn in Hpc; subst p.
  destruct (run_hw_gated evs (fg_step (mkConfig PcIntOff l w)))
    as (H1 & H2 & H3 & H4 & H5 & _).
  { destruct w; reflexivity. }
  rewrite H1, H2, H3, H4, H5. destruct w; repeat split; reflexivity.
Qed.

Lemma after_clear (evs : list HwEvent) (c : Config) :
  pc c = PcClear -> icu_irq (world c) = false ->
  let c2 := run ([Fg] ++ map Hw evs) c in
  pc c2 = PcCalc /\ icu_irq (world c2) = false
  /\ g_timeHigh (world c2) = g_timeHigh (world c)
  /\ g_readyFlag (world c2) = 0
  /\ l_distance c2 = l_distance c.
Proof.
  intros Hpc Hoff c2. subst c2. rewrite run_app. cbn [run step].
  destruct c as [p l w]; cbn in Hpc, Hoff; subst p.
  destruct (run_hw_gated evs (fg_step (mkConfig PcClear l w)))
    as (H1 & H2 & H3 & H4 & H5 & _).
  { destruct w; exact Hoff. }
  rewrite H1, H2, H3, H4, H5. destruct w; repeat split; reflexivity.
Qed.

Lemma after_calc (evs : list HwEvent) (c : Config) :
  pc c = PcCalc -> icu_irq (world c) = false ->
  let c3 := run ([Fg] ++ map Hw evs) c in
  pc c3 = PcReturn /\ icu_irq (world c3) = false
  /\ g_timeHigh (world c3) = g_timeHigh (world c)
  /\ g_readyFlag (world c3) = g_readyFlag (world c)
  /\ l_distance c3 = ticks_to_distance (g_timeHigh (world c)).
Proof.
  intros Hpc Hoff c3. subst c3. rewrite run_app. cbn [run step].
  destruct c as [p l w]; cbn in Hpc, Hoff; subst p.
  destruct (run_hw_gated evs (fg_step (mkConfig PcCalc l w)))
    as (H1 & H2 & H3 & H4 & H5 & _).
  { exact Hoff. }
  rewrite H1, H2, H3, H4, H5. repeat split; reflexivity.
Qed.

(** C9 (ordering): take any execution of the call that has left the wait
    and is at line 101, and let hardware events of any kind arrive after
    each of the next three statements.  The first statement disables the
    edge-detection interrupt and leaves the flag, which is set, and the
    tick count as they are; only then the second clears the flag; only then
    the third reads the tick count, and what it puts in [l_distance] is the
    conversion of the count that was in [g_timeHigh] when the interrupt was
    disabled: no event in between has changed it or set the flag again.
    And in no execution at all does a foreground statement change the flag
    or [l_distance] while the interrupt is enabled. *)
Theorem irq_off_before_clear_and_read (w : World) (sch sch' : list Action)
    (evs1 evs2 evs3 : list HwEvent)
    (Hpc : pc (run sch (call_readDistance w)) = PcIntOff) :
  let c := run sch (call_readDistance w) in
  let c1 := run ([Fg] ++ map Hw evs1) c in
  let c2 := run ([Fg] ++ map Hw evs2) c1 in
  let c3 := run ([Fg] ++ map Hw evs3) c2 in
  let d := run sch' (call_readDistance w) in
  g_readyFlag (world c) <> 0
  /\ (pc c1 = PcClear /\ icu_irq (world c1) = false
      /\ g_readyFlag (world c1) = g_readyFlag (world c)
      /\ g_timeHigh (world c1) = g_timeHigh (world c)
      /\ l_distance c1 = l_distance c)
  /\ (pc c2 = PcCalc /\ icu_irq (world c2) = false
      /\ g_readyFlag (world c2) = 0
      /\ g_timeHigh (world c2) = g_timeHigh (world c)
      /\ l_distance c2 = l_distance c)
  /\ (pc c3 = PcReturn /\ icu_irq (world c3) = false
      /\ g_readyFlag (world c3) = 0
      /\ l_distance c3 = ticks_to_distance (g_timeHigh (world c)))
  /\ (g_readyFlag (world (fg_step d)) <> g_readyFlag (world d) ->
      icu_irq (world d) = false)
  /\ (l_distance (fg_step d) <> l_distance d -> icu_irq (world d) = false).
Proof.
  intros c c1 c2 c3 d.
  assert (Hset : g_readyFlag (world c) <> 0).
  { apply (run_sample_pending sch (call_readDistance w)).
    - intros [H|H]; discriminate H.
    - left. exact Hpc. }
  destruct (after_interruptOff evs1 c Hpc) as (Hp1 & Hi1 & Ht1 & Hf1 & Hl1).
  fold c1 in Hp1, Hi1, Ht1, Hf1, Hl1.
  destruct (after_clear evs2 c1 Hp1 Hi1) as (Hp2 & Hi2 & Ht2 & Hf2 & Hl2).
  fold c2 in Hp2, Hi2, Ht2, Hf2, Hl2.
  destruct (after_calc evs3 c2 Hp2 Hi2) as (Hp3 & Hi3 & Ht3 & Hf3 & Hl3).
  fold c3 in Hp3, Hi3, Ht3, Hf3, Hl3.
  split; [exact Hset|].
  split; [auto|].
  split; [rewrite Ht2, Ht1, Hl2, Hl1; auto|].
  split; [rewrite Hf3, Hl3, Ht2, Ht1; auto|].
  destruct (run_fg_owns sch' _ (call_fg_owns w)) as (HI & _).
  fold d in HI. unfold past_irq_off in HI.
  destruct (fg_step_writes d) as [[Hsame|Hat] [Hsame'|Hat']].
  - split; intros H; contradiction.
  - split; intros H; [contradiction | apply HI; rewrite Hat'; reflexivity].
  - split; intros H; [apply HI; rewrite Hat; reflexivity | contradiction].
  - split; intros H; apply HI; rewrite Hat; reflexivity.
Qed.

Lemma irq_off_before_clear_and_read_witness :
  pc (run [Fg; Fg; Hw Edge; Hw (Tick 585); Hw Edge; Fg]
          (call_readDistance (boot false))) = PcIntOff
  /\ l_distance
       (run ([Fg] ++ map Hw [Edge; Tick 9])
          (run ([Fg] ++ map Hw [Edge])
             (run ([Fg] ++ map Hw [Edge; Tick 2400; Edge])
                (run [Fg; Fg; Hw Edge; Hw (Tick 585); Hw Edge; Fg]
                     (call_readDistance (boot false))))))
     = ticks_to_distance
         (g_timeHigh
            (world (run [Fg; Fg; Hw Edge; Hw (Tick 585); Hw Edge; Fg]
                        (call_readDistance (boot false))))).
Proof.
  split; [reflexivity|].
  apply (irq_off_before_clear_and_read (boot false)
           [Fg; Fg; Hw Edge; Hw (Tick 585); Hw Edge; Fg] []
           [Edge; Tick 2400; Edge] [Edge] [Edge; Tick 9] eq_refl).
Defined.

(** *** The busy-wait *)

(** While the flag is clear the foreground stays at or before the wait; the
    only step that can end this is an edge taken with the interrupt
    enabled. *)
Lemma step_waiting (a : Action) (c : Config) :
  waiting c = true -> g_readyFlag (world c) = 0 ->
  (waiting (step a c) = true /\ g_readyFlag (world (step a c)) = 0)
  \/ (a = Hw Edge /\ g_readyFlag (world (step a c)) = 1
      /\ icu_irq (world c) = true /\ g_edgeCount (world c) = 1).
Proof.
  destruct c as [p l w]. intros Hw0 Hf. destruct a as [|[n|]].
  - left. destruct w as [th ec rf gd sm tm ed irq o cs].
    cbn in Hf; subst rf.
    destruct p; try discriminate Hw0; split; reflexivity.
  - left. destruct w; cbn in *. auto.
  - cbn [step hw_step world pc l_distance] in *.
    destruct (icu_irq w) eqn:Hirq; [|left; auto].
    destruct (Z.eq_dec (g_edgeCount w) 0) as [H0|H0].
    { left. rewrite (onEdge_rising w H0). cbn. auto. }
    destruct (Z.eq_dec (g_edgeCount w) 1) as [H1|H1].
    { right. rewrite (onEdge_falling w H1). cbn. auto. }
    left. rewrite (onEdge_other w H0 H1). auto.
Qed.

Lemma run_waiting (sch : list Action) (c : Config) :
  waiting c = true -> g_readyFlag (world c) = 0 ->
  (waiting (run sch c) = true /\ g_readyFlag (world (run sch c)) = 0)
  \/ (exists sch1 sch2,
        sch = sch1 ++ Hw Edge :: sch2
        /\ g_readyFlag (world (run sch1 c)) = 0
        /\ icu_irq (world (run sch1 c)) = true
        /\ g_edgeCount (world (run sch1 c)) = 1
        /\ g_readyFlag (world (run (sch1 ++ [Hw Edge]) c)) = 1).
Proof.
  revert c. induction sch as [|a sch IH]; intros c Hw0 Hf; cbn [run].
  - left. auto.
  - destruct (step_waiting a c Hw0 Hf) as [[Hw1 Hf1] | (-> & Hset & Hirq & Hec)].
    + destruct (IH _ Hw1 Hf1) as [Hstill | (s1 & s2 & -> & H1 & H2 & H3 & H4)].
      * left. exact Hstill.
      * right. exists (a :: s1), s2. cbn [app run]. auto.
    + right. exists [], sch. cbn [app run]. auto.
Qed.

(** With at most one edge (the rising one) the flag is never set. *)
Lemma run_blocks (sch : list Action) (c : Config) :
  waiting c = true -> g_readyFlag (world c) = 0 ->
  (g_edgeCount (world c) = 0 /\ (edge_count sch <= 1)%nat)
  \/ edge_count sch = 0%nat ->
  waiting (run sch c) = true /\ g_readyFlag (world (run sch c)) = 0.
Proof.
  revert c. induction sch as [|a sch IH]; intros c Hw0 Hf Hedges; cbn [run].
  - auto.
  - destruct (step_waiting a c Hw0 Hf) as [[Hw1 Hf1] | (-> & Hset & Hirq & Hec)].
    + apply IH; [exact Hw1 | exact Hf1 |].
      destruct a as [|[n|]]; cbn [edge_count] in Hedges.
      * destruct (fg_step_frame c) as (Hec & _). cbn [step]. rewrite Hec.
        exact Hedges.
      * cbn [step world hw_step]. destruct (world c); exact Hedges.
      * right. lia.
    + cbn [edge_count] in Hedges. lia.
Qed.

(** Once the wait is over every foreground statement makes progress, and
    the hardware cannot undo it. *)
Lemma step_wait_over (a : Action) (c : Config) :
  wait_over c ->
  wait_over (step a c)
  /\ remaining (pc (step a c))
     = match a with Fg => pred (remaining (pc c)) | Hw _ => remaining (pc c) end.
Proof.
  unfold wait_over. destruct c as [p l w]. destruct a as [|e]; cbn [step].
  - destruct w as [th ec rf gd sm tm ed irq o cs].
    destruct p; eval_world; intros H; try (split; [intros H'; try discriminate H'; auto | reflexivity]).
    destruct (Z.eqb_spec rf 0) as [Hz|Hz].
    + exfalso. apply (H eq_refl Hz).
    + split; [intros H'; discriminate H' | reflexivity].
  - cbn [world pc l_distance]. intros H. split; [|reflexivity].
    intros H'. apply hw_step_frame. apply H. exact H'.
Qed.

Lemma run_returns (sch : list Action) (c : Config) :
  wait_over c -> (remaining (pc c) <= fg_count sch)%nat ->
  returned (run sch c) = true.
Proof.
  revert c. induction sch as [|a sch IH]; intros c Hover Hn; cbn [run].
  - unfold returned. cbn [fg_count] in Hn.
    destruct (pc c); cbn in Hn; first [reflexivity | lia].
  - destruct (step_wait_over a c Hover) as [Hover' Hrem].
    apply IH; [exact Hover'|]. rewrite Hrem.
    destruct a; cbn [fg_count] in Hn; lia.
Qed.

(** C7 (no timeout): a call entered in the rising phase with the flag
    clear returns only if some edge, taken by the callback with the
    interrupt enabled, sets the flag; with at most one edge it is still at
    or before the wait after a schedule of any length; and once the flag is
    set it returns after at most seven more foreground statements,
    whatever the hardware does in between. *)
Theorem readDistance_no_timeout (w : World)
    (Hready : g_readyFlag w = 0) (Hphase : g_edgeCount w = 0) :
  let c0 := call_readDistance w in
  (forall sch, returned (run sch c0) = true ->
     exists sch1 sch2,
       sch = sch1 ++ Hw Edge :: sch2
       /\ g_readyFlag (world (run sch1 c0)) = 0
       /\ icu_irq (world (run sch1 c0)) = true
       /\ g_readyFlag (world (run (sch1 ++ [Hw Edge]) c0)) = 1)
  /\ (forall sch, (edge_count sch <= 1)%nat ->
        returned (run sch c0) = false /\ waiting (run sch c0) = true)
  /\ (forall sch1 sch2,
        g_readyFlag (world (run sch1 c0)) <> 0 ->
        (7 <= fg_count sch2)%nat ->
        returned (run (sch1 ++ sch2) c0) = true
        /\ l_distance (run (sch1 ++ sch2) c0)
           = ticks_to_distance (g_timeHigh (world (run (sch1 ++ sch2) c0)))).
Proof.
  intros c0. split; [|split].
  - intros sch Hret.
    destruct (run_waiting sch c0 eq_refl Hready)
      as [[Hwait _] | (s1 & s2 & Hs & H1 & H2 & _ & H4)].
    + exfalso. unfold returned in Hret. unfold waiting in Hwait.
      destruct (pc (run sch c0)); discriminate.
    + exists s1, s2. auto.
  - intros sch Hedges.
    destruct (run_blocks sch c0 eq_refl Hready (or_introl (conj Hphase Hedges)))
      as [Hwait _].
    split; [|exact Hwait].
    unfold returned. unfold waiting in Hwait.
    destruct (pc (run sch c0)); try discriminate Hwait; reflexivity.
  - intros sch1 sch2 Hset Hn.
    assert (Hret : returned (run (sch1 ++ sch2) c0) = true).
    { rewrite run_app. apply run_returns.
      - intros _. exact Hset.
      - destruct (pc (run sch1 c0)); cbn; lia. }
    split; [exact Hret|].
    destruct (run_fg_owns (sch1 ++ sch2) _ (call_fg_owns w)) as (_ & _ & HL).
    apply HL. unfold past_calc. unfold returned in Hret. subst c0.
    destruct (pc (run (sch1 ++ sch2) (call_readDistance w)));
      try discriminate Hret; reflexivity.
Qed.

Lemma readDistance_no_timeout_witness :
  g_readyFlag (boot false) = 0 /\ g_edgeCount (boot false) = 0
  /\ returned (run ([Fg; Fg; Hw Edge; Hw (Tick 2400); Hw Edge]
                     ++ [Fg; Fg; Fg; Fg; Fg; Fg; Fg])
                    (call_readDistance (boot false))) = true
  /\ returned (run [Fg; Fg; Hw Edge; Hw (Tick 2400); Fg; Fg; Fg; Fg; Fg; Fg]
                    (call_readDistance (boot false))) = false.
Proof.
  destruct (readDistance_no_timeout (boot false) eq_refl eq_refl)
    as (_ & Hblock & Hret).
  split; [reflexivity|]. split; [reflexivity|]. split.
  - apply Hret; [discriminate | cbn; lia].
  - apply Hblock. cbn. lia.
Defined.

End RangingFacts.

Module MainLoopFacts.
Import Ultrasonic.
Import EdgeCaptureFacts.
Import RangingFacts.


(** *** A cycle with at most two edges *)





End MainLoopFacts.

(** * Further properties of the code *)

Module ClassifierExtras.
Import Ultrasonic.
Import App.
Import Main.

Lemma ticks_to_distance_div (t : Z) :
  0 <= t < 65536 -> ticks_to_distance t = t / 117.
Proof.
  intros Ht. unfold ticks_to_distance, uint16.
  rewrite Z.quot_div_nonneg by lia.
  apply Z.mod_small.
  split; [apply Z.div_pos; lia | apply Z.div_lt_upper_bound; lia].
Qed.

Lemma ticks_to_distance_range (t : Z) : 0 <= ticks_to_distance t < 65536.
Proof. unfold ticks_to_distance, uint16. apply Z.mod_pos_bound. lia. Qed.

(** X1 (severity is monotone): the enumerators are declared from least to
    most severe, and the cascade never gives a farther obstacle a more
    severe band than a nearer one. *)
Theorem classify_monotone (d1 d2 : Z) (Hle : d1 <= d2) :
  STATE_MACHINE_value (classify d2) <= STATE_MACHINE_value (classify d1).
Proof.
  unfold classify, DISTANCE_DANGER, DISTANCE_WARNING_MAX, DISTANCE_SAFE_MAX,
    DISTANCE_DETECTED_MAX.
  AppFacts.split_leb; cbn; lia.
Qed.

Lemma classify_monotone_witness :
  7 <= 18
  /\ STATE_MACHINE_value (classify 18) <= STATE_MACHINE_value (classify 7).
Proof.
  assert (H : 7 <= 18) by lia.
  split; [exact H | apply (classify_monotone 7 18 H)].
Defined.

(** X2 (bands in ticks): conversion followed by classification cuts the
    16-bit tick range at 702, 1287, 1872 and 2457 ticks: below 702 DANGER,
    then WARNING, SAFE, DETECTED, and IDLE from 2457 on. *)
Theorem classify_ticks (n : Z) (Hn : 0 <= n < 65536) :
  classify (ticks_to_distance n)
  = if n <? 702 then DANGER
    else if n <? 1287 then WARNING
    else if n <? 1872 then SAFE
    else if n <? 2457 then DETECTED
    else IDLE.
Proof.
  rewrite (ticks_to_distance_div n Hn).
  unfold classify, DISTANCE_DANGER, DISTANCE_WARNING_MAX, DISTANCE_SAFE_MAX,
    DISTANCE_DETECTED_MAX.
  AppFacts.split_leb; try reflexivity; exfalso;
    Z.div_mod_to_equations; lia.
Qed.

Lemma classify_ticks_witness :
  0 <= 1286 < 65536 /\ classify (ticks_to_distance 1286) = WARNING.
Proof.
  assert (H : 0 <= 1286 < 65536) by lia.
  split; [exact H | apply (classify_ticks 1286 H)].
Defined.

End ClassifierExtras.

Module DriverExtras.
Import Ultrasonic.
Import Main.
Import EdgeCaptureFacts.
Import RangingFacts.

(** Replaces [run l c], for an explicit [c], by its value. *)
Ltac eval_run l :=
  match goal with
  | |- context [run l ?c] =>
      let t := eval lazy -[uint16 ticks_to_distance app repeat] in (run l c) in
      change (run l c) with t
  end.

(** Polling while the flag is clear changes nothing. *)
Lemma poll_idle (k : nat) (c : Config) :
  pc c = PcWait -> g_readyFlag (world c) = 0 -> run (repeat Fg k) c = c.
Proof.
  intros Hpc Hf. induction k as [|k IH]; [reflexivity|].
  cbn [repeat run step]. unfold fg_step. rewrite Hpc, Hf. cbn. exact IH.
Qed.

Lemma uint16_small (n : Z) : 0 <= n < 65536 -> uint16 n = n.
Proof. intros H. apply Z.mod_small, H. Qed.

(** Runs [clean_cycle k1 k2 k3 m n] from an armed world, segment by
    segment: the polls are idle, the other segments are evaluated. *)
Ltac run_clean_cycle w Harmed k1 k2 k3 m n Hn :=
  destruct w as [th ec rf gd sm tm ed irq [tp lr lg lb bz] cs];
  destruct Harmed as [Hec Hrf]; cbn in Hec, Hrf; subst ec rf;
  unfold clean_cycle; rewrite !run_app;
  eval_run [Fg; Fg];
  rewrite (poll_idle k1) by reflexivity;
  eval_run [Hw (Tick m); Hw Edge];
  rewrite (poll_idle k2) by reflexivity;
  eval_run [Hw (Tick n)];
  rewrite (poll_idle k3) by reflexivity;
  eval_run [Hw Edge];
  cbn [repeat]; eval_run [Fg; Fg; Fg; Fg; Fg];
  cbn; rewrite !(uint16_small n Hn);
  rewrite (ClassifierExtras.ticks_to_distance_div n Hn);
  unfold armed; cbn.

(** What the next statements of the main loop rely on after such a call. *)
Lemma clean_cycle_run (w : World) (k1 k2 k3 : nat) (m n : Z) :
  armed w -> 0 <= n < 65536 ->
  let c := run (clean_cycle k1 k2 k3 m n) (call_readDistance w) in
  returned c = true /\ l_distance c = n / 117
  /\ armed (world c) /\ icu_irq (world c) = false.
Proof.
  intros Harmed Hn.
  run_clean_cycle w Harmed k1 k2 k3 m n Hn.
  repeat split; reflexivity.
Qed.

(** X3 (one echo, one distance): entered armed, a call that sees one echo
    pulse of [n] ticks returns [n / 117], however often it polls and
    whatever the timer showed before the rising edge; it leaves the capture
    armed for the next call, the interrupt disabled, the rising polarity
    selected and the trigger line low. *)
Theorem clean_cycle_returns (w : World) (k1 k2 k3 : nat) (m n : Z)
    (Harmed : armed w) (Hn : 0 <= n < 65536) :
  let c := run (clean_cycle k1 k2 k3 m n) (call_readDistance w) in
  returned c = true
  /\ l_distance c = n / 117
  /\ g_timeHigh (world c) = n
  /\ armed (world c)
  /\ icu_irq (world c) = false
  /\ icu_edge (world c) = RAISING
  /\ trigger_pin (out (world c)) = false.
Proof.
  run_clean_cycle w Harmed k1 k2 k3 m n Hn.
  repeat split; reflexivity.
Qed.

Lemma clean_cycle_returns_witness :
  armed (boot false) /\ 0 <= 2400 < 65536
  /\ l_distance (run (clean_cycle 3 40 2 17 2400)
                     (call_readDistance (boot false))) = 2400 / 117.
Proof.
  assert (Ha : armed (boot false)) by (split; reflexivity).
  assert (Hn : 0 <= 2400 < 65536) by lia.
  split; [exact Ha|]. split; [exact Hn|].
  apply (clean_cycle_returns (boot false) 3 40 2 17 2400 Ha Hn).
Defined.

(** *** Range of the stored tick count and of the result *)

Lemma onEdge_timeHigh_range (w : World) :
  timeHigh_in_range w -> timeHigh_in_range (onEdge w).
Proof.
  unfold timeHigh_in_range. intros H.
  destruct (Z.eq_dec (g_edgeCount w) 0) as [H0|H0].
  - rewrite (onEdge_rising w H0). exact H.
  - destruct (Z.eq_dec (g_edgeCount w) 1) as [H1|H1].
    + rewrite (onEdge_falling w H1). cbn [g_timeHigh].
      apply Z.mod_pos_bound. lia.
    + rewrite (onEdge_other w H0 H1). exact H.
Qed.

Lemma step_timeHigh_range (a : Action) (c : Config) :
  timeHigh_in_range (world c) -> timeHigh_in_range (world (step a c)).
Proof.
  unfold timeHigh_in_range at 2. destruct a as [|[n|]]; cbn [step world].
  - destruct (fg_step_frame c) as (_ & -> & _). auto.
  - destruct (world c); auto.
  - cbn [hw_step]. destruct (icu_irq (world c)); [|auto].
    apply onEdge_timeHigh_range.
Qed.

Lemma run_timeHigh_range (sch : list Action) (c : Config) :
  timeHigh_in_range (world c) -> timeHigh_in_range (world (run sch c)).
Proof.
  revert c. induction sch as [|a sch IH]; intros c H; cbn [run].
  - exact H.
  - apply IH, step_timeHigh_range, H.
Qed.

(** X4 (bound of the result): a call entered with a 16-bit value in
    [g_timeHigh] returns once the flag has been set and seven more
    foreground statements have run, whatever hardware events are
    interleaved; the value it returns is the tick count then in
    [g_timeHigh] divided by 117, between 0 and 560. *)
Theorem returned_distance_bound (w : World) (sch1 sch2 : list Action)
    (Hrange : timeHigh_in_range w)
    (Hset : g_readyFlag (world (run sch1 (call_readDistance w))) <> 0)
    (Hfg : (7 <= fg_count sch2)%nat) :
  let c := run (sch1 ++ sch2) (call_readDistance w) in
  returned c = true
  /\ 0 <= l_distance c <= 560
  /\ l_distance c = g_timeHigh (world c) / 117.
Proof.
  intros c.
  assert (Hret : returned c = true).
  { unfold c. rewrite run_app. apply run_returns.
    - intros _. exact Hset.
    - destruct (pc (run sch1 (call_readDistance w))); cbn; lia. }
  split; [exact Hret|].
  pose proof (run_timeHigh_range (sch1 ++ sch2) (call_readDistance w) Hrange)
    as Hr.
  destruct (run_fg_owns (sch1 ++ sch2) _ (call_fg_owns w)) as (_ & _ & HL).
  fold c in Hr, HL.
  assert (Hl : l_distance c = ticks_to_distance (g_timeHigh (world c))).
  { apply HL. unfold past_calc. unfold returned in Hret.
    destruct (pc c); try discriminate Hret; reflexivity. }
  unfold timeHigh_in_range in Hr.
  rewrite Hl, (ClassifierExtras.ticks_to_distance_div _ Hr).
  split; [|reflexivity].
  split; [apply Z.div_pos; lia|].
  apply Z.lt_succ_r, Z.div_lt_upper_bound; lia.
Qed.

Lemma returned_distance_bound_witness :
  timeHigh_in_range (boot false)
  /\ g_readyFlag
       (world (run [Fg; Fg; Hw Edge; Hw (Tick 65535); Hw Edge]
                   (call_readDistance (boot false)))) <> 0
  /\ (7 <= fg_count [Fg; Hw Edge; Fg; Fg; Hw (Tick 3); Fg; Fg; Fg; Fg])%nat
  /\ returned
       (run ([Fg; Fg; Hw Edge; Hw (Tick 65535); Hw Edge]
               ++ [Fg; Hw Edge; Fg; Fg; Hw (Tick 3); Fg; Fg; Fg; Fg])
            (call_readDistance (boot false))) = true.
Proof.
  assert (Hr : timeHigh_in_range (boot false))
    by (unfold timeHigh_in_range; cbn; lia).
  assert (Hs : g_readyFlag
                 (world (run [Fg; Fg; Hw Edge; Hw (Tick 65535); Hw Edge]
                             (call_readDistance (boot false)))) <> 0)
    by discriminate.
  assert (Hf : (7 <= fg_count [Fg; Hw Edge; Fg; Fg; Hw (Tick 3);
                               Fg; Fg; Fg; Fg])%nat) by (cbn; lia).
  split; [exact Hr|]. split; [exact Hs|]. split; [exact Hf|].
  apply (returned_distance_bound (boot false) _ _ Hr Hs Hf).
Defined.

(** X5 (wrap-around of the tick count): from the rising phase, an edge pair
    [n] ticks apart stores [n mod 65536]; pulses that differ by 65536 ticks
    store the same count, and the distance computed from the stored count
    is at most 560. *)
Theorem tick_count_wraps (w : World) (n : Z) (Hphase : g_edgeCount w = 0) :
  g_timeHigh (onEdge (hw_step (Tick n) (onEdge w))) = n mod 65536
  /\ g_timeHigh (onEdge (hw_step (Tick (n + 65536)) (onEdge w)))
     = g_timeHigh (onEdge (hw_step (Tick n) (onEdge w)))
  /\ 0 <= ticks_to_distance
            (g_timeHigh (onEdge (hw_step (Tick n) (onEdge w)))) <= 560.
Proof.
  assert (Hstore : forall k,
             g_timeHigh (onEdge (hw_step (Tick k) (onEdge w))) = k mod 65536).
  { intros k. rewrite (onEdge_rising w Hphase).
    rewrite onEdge_falling by reflexivity. cbn. unfold uint16.
    apply Z.mod_mod. lia. }
  rewrite !Hstore.
  split; [reflexivity|].
  split.
  { replace (n + 65536) with (n + 1 * 65536) by lia.
    apply Z.mod_add. lia. }
  pose proof (Z.mod_pos_bound n 65536 ltac:(lia)) as Hb.
  rewrite (ClassifierExtras.ticks_to_distance_div _ Hb).
  split; [apply Z.div_pos; lia|].
  apply Z.lt_succ_r, Z.div_lt_upper_bound; lia.
Qed.

Lemma tick_count_wraps_witness :
  g_edgeCount (boot true) = 0
  /\ g_timeHigh (onEdge (hw_step (Tick (585 + 65536)) (onEdge (boot true))))
     = g_timeHigh (onEdge (hw_step (Tick 585) (onEdge (boot true)))).
Proof.
  split; [reflexivity|].
  apply (tick_count_wraps (boot true) 585 eq_refl).
Defined.

(** *** The flag is never lost *)

Lemma step_ready_kept (a : Action) (c : Config) :
  past_clear c = true \/ g_readyFlag (world c) <> 0 ->
  past_clear (step a c) = true \/ g_readyFlag (world (step a c)) <> 0.
Proof.
  destruct c as [p l w]. destruct a as [|e]; cbn [step].
  - destruct w as [th ec rf gd sm tm ed irq o cs].
    destruct p; eval_world; try destruct (rf =? 0);
      intros [H|H]; try discriminate H; auto.
  - cbn [world pc l_distance]. intros [H|H]; [left; exact H|].
    right. apply hw_step_frame, H.
Qed.

(** X6 (no lost sample): once [g_readyFlag] is set it stays set, through
    any hardware events and foreground statements, until the foreground
    itself has executed the clearing statement of line 104. *)
Theorem ready_flag_persists (c : Config) (sch : list Action)
    (Hset : g_readyFlag (world c) <> 0)
    (Hbefore : past_clear (run sch c) = false) :
  g_readyFlag (world (run sch c)) <> 0.
Proof.
  assert (Hinv : past_clear (run sch c) = true
                 \/ g_readyFlag (world (run sch c)) <> 0).
  { assert (H0 : past_clear c = true \/ g_readyFlag (world c) <> 0)
      by (right; exact Hset).
    clear Hset Hbefore. revert c H0.
    induction sch as [|a sch IH]; intros c H0; cbn [run]; [exact H0|].
    apply IH, step_ready_kept, H0. }
  destruct Hinv as [H|H]; [|exact H].
  rewrite H in Hbefore. discriminate Hbefore.
Qed.

Lemma ready_flag_persists_witness :
  g_readyFlag
    (world (run [Fg; Fg; Hw Edge; Hw (Tick 9); Hw Edge]
                (call_readDistance (boot false)))) <> 0
  /\ g_readyFlag
       (world (run ([Fg; Fg; Hw Edge; Hw (Tick 9); Hw Edge]
                      ++ [Hw Edge; Hw (Tick 70); Fg; Hw Edge; Fg])
                   (call_readDistance (boot false)))) <> 0.
Proof.
  assert (Hset : g_readyFlag
                   (world (run [Fg; Fg; Hw Edge; Hw (Tick 9); Hw Edge]
                               (call_readDistance (boot false)))) <> 0)
    by discriminate.
  split; [exact Hset|].
  rewrite run_app.
  apply (ready_flag_persists _ [Hw Edge; Hw (Tick 70); Fg; Hw Edge; Fg] Hset
           eq_refl).
Defined.

(** *** Polarity and phase *)

Lemma fg_step_edge (c : Config) :
  icu_edge (world (fg_step c)) = icu_edge (world c).
Proof.
  destruct c as [p l w]; destruct w as [th ec rf gd sm tm ed irq o cs].
  destruct p; eval_world; try destruct (rf =? 0); reflexivity.
Qed.

Lemma step_polarity (a : Action) (c : Config) :
  polarity_matches (world c) -> polarity_matches (world (step a c)).
Proof.
  unfold polarity_matches. destruct a as [|[n|]]; cbn [step world hw_step].
  - destruct (fg_step_frame c) as (-> & _). rewrite fg_step_edge. auto.
  - destruct (world c); auto.
  - destruct (icu_irq (world c)); [|auto].
    intros [[Hc He]|[Hc He]].
    + right. rewrite (onEdge_rising _ Hc). cbn. auto.
    + left. rewrite (onEdge_falling _ Hc). cbn. auto.
Qed.

(** X7 (polarity follows phase): if the polarity selected in the capture
    unit agrees with the counter (rising at 0, falling at 1), as it does
    after initialisation, it still does after any interleaving of
    foreground statements, ticks and edges. *)
Theorem polarity_follows_phase (c : Config) (sch : list Action)
    (Hinit : polarity_matches (world c)) :
  polarity_matches (world (run sch c)).
Proof.
  revert c Hinit. induction sch as [|a sch IH]; intros c H; cbn [run].
  - exact H.
  - apply IH, step_polarity, H.
Qed.

Lemma polarity_follows_phase_witness :
  polarity_matches (world (call_readDistance (boot false)))
  /\ polarity_matches
       (world (run (late_edge_cycle 300) (call_readDistance (boot false)))).
Proof.
  assert (H : polarity_matches (world (call_readDistance (boot false))))
    by (left; split; reflexivity).
  split; [exact H|].
  apply (polarity_follows_phase _ (late_edge_cycle 300) H).
Defined.

(** *** A call entered out of phase *)

Lemma late_edge_run (w : World) (n : Z) :
  armed w ->
  let c := run (late_edge_cycle n) (call_readDistance w) in
  returned c = true
  /\ l_distance c = ticks_to_distance (uint16 (uint16 n))
  /\ g_edgeCount (world c) = 1 /\ g_readyFlag (world c) = 0
  /\ icu_timer (world c) = 0 /\ icu_irq (world c) = false.
Proof.
  destruct w as [th ec rf gd sm tm ed irq [tp lr lg lb bz] cs].
  intros [Hec Hrf]; cbn in Hec, Hrf; subst ec rf.
  unfold late_edge_cycle. eval_run [Fg; Fg; Hw Edge; Hw (Tick n); Hw Edge;
                                    Hw Edge; Fg; Fg; Fg; Fg; Fg].
  cbn. repeat split; reflexivity.
Qed.

Lemma single_edge_run (w : World) (m : Z) :
  g_edgeCount w = 1 -> g_readyFlag w = 0 ->
  let c := run (single_edge_cycle m) (call_readDistance w) in
  returned c = true
  /\ l_distance c = ticks_to_distance (uint16 (uint16 (icu_timer w + m)))
  /\ armed (world c) /\ icu_irq (world c) = false.
Proof.
  destruct w as [th ec rf gd sm tm ed irq [tp lr lg lb bz] cs].
  intros Hec Hrf; cbn in Hec, Hrf; subst ec rf.
  unfold single_edge_cycle.
  match goal with
  | |- context [run ?l ?c] =>
      let t := eval lazy -[uint16 ticks_to_distance app Z.add] in (run l c) in
      change (run l c) with t
  end.
  unfold armed; cbn. repeat split; reflexivity.
Qed.

(** X8 (a call entered out of phase): entered with the counter at 1 and
    the flag clear, a call is completed by a single edge: that edge takes
    the falling branch, and the call returns the free-running timer value
    divided by 117, leaving the capture armed. *)
Theorem stale_phase_single_edge (w : World) (m : Z)
    (Hphase : g_edgeCount w = 1) (Hready : g_readyFlag w = 0)
    (Hm : 0 <= icu_timer w + m < 65536) :
  let c := run (single_edge_cycle m) (call_readDistance w) in
  returned c = true
  /\ l_distance c = (icu_timer w + m) / 117
  /\ armed (world c)
  /\ icu_irq (world c) = false.
Proof.
  destruct (single_edge_run w m Hphase Hready) as (Hret & Hl & Ha & Hi).
  split; [exact Hret|]. split; [|split; assumption].
  rewrite Hl, !(uint16_small _ Hm).
  apply ClassifierExtras.ticks_to_distance_div, Hm.
Qed.

Lemma stale_phase_single_edge_witness :
  g_edgeCount (set_g_edgeCount 1 (boot false)) = 1
  /\ g_readyFlag (set_g_edgeCount 1 (boot false)) = 0
  /\ 0 <= icu_timer (set_g_edgeCount 1 (boot false)) + 1500 < 65536
  /\ l_distance (run (single_edge_cycle 1500)
                     (call_readDistance (set_g_edgeCount 1 (boot false))))
     = (icu_timer (set_g_edgeCount 1 (boot false)) + 1500) / 117.
Proof.
  assert (Hm : 0 <= icu_timer (set_g_edgeCount 1 (boot false)) + 1500 < 65536)
    by (cbn; lia).
  split; [reflexivity|]. split; [reflexivity|]. split; [exact Hm|].
  apply (stale_phase_single_edge (set_g_edgeCount 1 (boot false)) 1500
           eq_refl eq_refl Hm).
Defined.

End DriverExtras.

Module MainExtras.
Import Ultrasonic.
Import App.
Import Main.
Import EdgeCaptureFacts.
Import RangingFacts.
Import DriverExtras.

(** What the rest of a pass does to the world, for a distance [d]. *)
Lemma main_after_read_effect (d : Z) (w : World) :
  let w' := exec (main_after_read d) w in
  (g_distance w' = d /\ g_stateMachine w' = classify d)
  /\ (g_readyFlag w' = g_readyFlag w /\ g_edgeCount w' = g_edgeCount w
      /\ g_timeHigh w' = g_timeHigh w /\ icu_timer w' = icu_timer w
      /\ icu_edge w' = icu_edge w /\ icu_irq w' = icu_irq w
      /\ trigger_pin (out w') = trigger_pin (out w))
  /\ (buzzer (out w') = false
      /\ led_red (out w') = (5 <? d) && (d <=? 20)
      /\ led_green (out w') = (5 <? d) && (d <=? 15)
      /\ led_blue (out w') = (5 <? d) && (d <=? 10))
  /\ readout_of (emitted (main_after_read d) w)
     = Some (if d <=? 5 then STOP_message else Numeric d).
Proof.
  intros w'. subst w'.
  change (emitted (main_after_read d) w)
    with (calls (exec (render (classify d))
                   (set_g_stateMachine (classify d)
                      (set_g_distance d (set_calls [] w))))).
  change (exec (main_after_read d) w)
    with (exec (render (classify d))
               (set_g_stateMachine (classify d) (set_g_distance d w))).
  destruct w as [th ec rf gd sm tm ed irq [tp lr lg lb bz] cs].
  unfold classify, DISTANCE_DANGER, DISTANCE_WARNING_MAX, DISTANCE_SAFE_MAX,
    DISTANCE_DETECTED_MAX.
  AppFacts.split_leb;
    first [ exfalso; lia | repeat split; reflexivity ].
Qed.

Lemma main_pass_post (sch : list Action) (w w' : World) :
  main_pass sch w = Some w' ->
  g_readyFlag w' = 0 /\ icu_irq w' = false
  /\ g_stateMachine w' = classify (g_distance w')
  /\ 0 <= g_distance w' < 65536
  /\ buzzer (out w') = false
  /\ led_red (out w') = (5 <? g_distance w') && (g_distance w' <=? 20)
  /\ led_green (out w') = (5 <? g_distance w') && (g_distance w' <=? 15)
  /\ led_blue (out w') = (5 <? g_distance w') && (g_distance w' <=? 10).
Proof.
  unfold main_pass.
  destruct (returned (run sch (call_readDistance w))) eqn:Hret;
    [|discriminate].
  intros Hw'. injection Hw' as <-.
  destruct (run_fg_owns sch _ (call_fg_owns w)) as (HI & HK & HL).
  assert (Hpc : pc (run sch (call_readDistance w)) = PcDone).
  { unfold returned in Hret.
    destruct (pc (run sch (call_readDistance w))); try discriminate Hret.
    reflexivity. }
  unfold past_irq_off in HI. unfold past_clear in HK. unfold past_calc in HL.
  rewrite Hpc in HI, HK, HL.
  destruct (main_after_read_effect
              (l_distance (run sch (call_readDistance w)))
              (world (run sch (call_readDistance w))))
    as ((Hd & Hs) & (Hf & _ & _ & _ & _ & Hi & _) & (Hb & Hr & Hg & Hbl) & _).
  rewrite Hd, Hs, Hf, Hi, Hb, Hr, Hg, Hbl.
  repeat split; auto.
  - rewrite (HL eq_refl). apply ClassifierExtras.ticks_to_distance_range.
  - rewrite (HL eq_refl). apply ClassifierExtras.ticks_to_distance_range.
Qed.

Lemma main_loop_quiet (schs : list (list Action)) (w w' : World) :
  schs <> [] -> main_loop schs w = Some w' -> buzzer (out w') = false.
Proof.
  revert w. induction schs as [|sch schs IH]; intros w Hpasses Hrun;
    [contradiction Hpasses; reflexivity|].
  cbn [main_loop] in Hrun.
  destruct (main_pass sch w) as [w1|] eqn:Hpass; [|discriminate].
  destruct schs as [|sch2 schs].
  - cbn in Hrun. injection Hrun as <-.
    destruct (main_pass_post sch w w1 Hpass) as (_ & _ & _ & _ & Hb & _).
    exact Hb.
  - apply (IH w1); [discriminate | exact Hrun].
Qed.

(** X10 (what holds between passes): after any positive number of
    completed passes of the main loop, from any world, the flag is clear
    and the edge interrupt disabled, the stored band is the band of the
    stored distance, the distance is a 16-bit value, the buzzer is off, and
    the indicators show the distance as a bar: red for 6 to 20, green for 6
    to 15, blue for 6 to 10. *)
Theorem main_loop_invariant (schs : list (list Action)) (w w' : World)
    (Hpasses : schs <> [])
    (Hrun : main_loop schs w = Some w') :
  g_readyFlag w' = 0 /\ icu_irq w' = false
  /\ g_stateMachine w' = classify (g_distance w')
  /\ 0 <= g_distance w' < 65536
  /\ buzzer (out w') = false
  /\ led_red (out w') = (5 <? g_distance w') && (g_distance w' <=? 20)
  /\ led_green (out w') = (5 <? g_distance w') && (g_distance w' <=? 15)
  /\ led_blue (out w') = (5 <? g_distance w') && (g_distance w' <=? 10).
Proof.
  revert w Hpasses Hrun.
  induction schs as [|sch schs IH]; intros w Hpasses Hrun;
    [contradiction Hpasses; reflexivity|].
  cbn [main_loop] in Hrun.
  destruct (main_pass sch w) as [w1|] eqn:Hpass; [|discriminate].
  destruct schs as [|sch2 schs].
  - cbn in Hrun. injection Hrun as <-. apply (main_pass_post sch w w1 Hpass).
  - apply (IH w1); [discriminate | exact Hrun].
Qed.

Lemma main_loop_invariant_witness :
  [clean_cycle 1 2 3 50 585; clean_cycle 0 0 0 0 1400] <> []
  /\ match main_loop [clean_cycle 1 2 3 50 585; clean_cycle 0 0 0 0 1400]
                     (boot false) with
     | Some w' => g_stateMachine w' = classify (g_distance w')
     | None => False
     end.
Proof.
  assert (Hne : [clean_cycle 1 2 3 50 585; clean_cycle 0 0 0 0 1400] <> [])
    by discriminate.
  split; [exact Hne|].
  destruct (main_loop [clean_cycle 1 2 3 50 585; clean_cycle 0 0 0 0 1400]
                      (boot false)) as [w'|] eqn:Hrun.
  - apply (main_loop_invariant _ (boot false) w' Hne Hrun).
  - vm_compute in Hrun. discriminate Hrun.
Defined.

(** X11 (from echo to display): a pass of the main loop that sees one echo
    pulse of [n] ticks stores [n / 117] as the distance and its band as
    the state, shows the STOP message when the distance is at most 5 and
    the number otherwise, and leaves the capture armed with the interrupt
    disabled. *)
Theorem pass_renders_echo (w : World) (k1 k2 k3 : nat) (m n : Z)
    (Harmed : armed w) (Hn : 0 <= n < 65536) :
  exists w',
    main_pass (clean_cycle k1 k2 k3 m n) w = Some w'
    /\ g_distance w' = n / 117
    /\ g_stateMachine w' = classify (n / 117)
    /\ armed w' /\ icu_irq w' = false
    /\ readout_of
         (emitted (main_after_read (n / 117))
            (world (run (clean_cycle k1 k2 k3 m n) (call_readDistance w))))
       = Some (if n / 117 <=? 5 then STOP_message else Numeric (n / 117)).
Proof.
  destruct (clean_cycle_run w k1 k2 k3 m n Harmed Hn)
    as (Hret & Hl & [Hec Hrf] & Hirq).
  unfold main_pass. rewrite Hret, Hl.
  eexists. split; [reflexivity|].
  destruct (main_after_read_effect (n / 117)
              (world (run (clean_cycle k1 k2 k3 m n) (call_readDistance w))))
    as ((Hd & Hs) & (Hf & He & _ & _ & _ & Hi & _) & _ & Hread).
  unfold armed. rewrite Hd, Hs, Hf, He, Hi, Hread. auto.
Qed.

Lemma pass_renders_echo_witness :
  armed (boot false) /\ 0 <= 585 < 65536
  /\ exists w', main_pass (clean_cycle 2 0 7 31 585) (boot false) = Some w'
                /\ g_distance w' = 585 / 117.
Proof.
  assert (Ha : armed (boot false)) by (split; reflexivity).
  assert (Hn : 0 <= 585 < 65536) by lia.
  split; [exact Ha|]. split; [exact Hn|].
  destruct (pass_renders_echo (boot false) 2 0 7 31 585 Ha Hn)
    as (w' & Hpass & Hd & _).
  exists w'. split; [exact Hpass | exact Hd].
Defined.

(** X12 (a late edge spoils the next reading): if a third edge is taken
    before the foreground leaves the wait, the pass still completes, but
    the next call is entered out of phase: it is completed by the first
    edge it sees, and the distance stored by that pass is the time since
    the late edge divided by 117, whatever the echo pulse. *)
Theorem late_edge_corrupts_next (w : World) (n m : Z)
    (Harmed : armed w) (Hm : 0 <= m < 65536) :
  exists w',
    main_loop [late_edge_cycle n; single_edge_cycle m] w = Some w'
    /\ g_distance w' = m / 117
    /\ g_stateMachine w' = classify (m / 117)
    /\ armed w'.
Proof.
  destruct (late_edge_run w n Harmed) as (Hret1 & _ & Hec1 & Hrf1 & Htm1 & _).
  cbn [main_loop]. unfold main_pass at 1. rewrite Hret1.
  set (c1 := run (late_edge_cycle n) (call_readDistance w)) in *.
  set (w1 := exec (main_after_read (l_distance c1)) (world c1)).
  destruct (main_after_read_effect (l_distance c1) (world c1))
    as (_ & (Hf & He & _ & Ht & _) & _).
  fold w1 in Hf, He, Ht.
  assert (Hec : g_edgeCount w1 = 1) by (rewrite He; exact Hec1).
  assert (Hrf : g_readyFlag w1 = 0) by (rewrite Hf; exact Hrf1).
  destruct (single_edge_run w1 m Hec Hrf) as (Hret2 & Hl2 & [Hec2 Hrf2] & _).
  unfold main_pass. rewrite Hret2.
  eexists. split; [reflexivity|].
  set (c2 := run (single_edge_cycle m) (call_readDistance w1)) in *.
  destruct (main_after_read_effect (l_distance c2) (world c2))
    as ((Hd & Hs) & (Hf2 & He2 & _) & _).
  assert (Hq : l_distance c2 = m / 117).
  { rewrite Hl2, Ht, Htm1, Z.add_0_l, !(uint16_small m Hm).
    apply ClassifierExtras.ticks_to_distance_div, Hm. }
  unfold armed. rewrite Hd, Hs, Hf2, He2, Hq. auto.
Qed.

Lemma late_edge_corrupts_next_witness :
  armed (boot false) /\ 0 <= 351 < 65536
  /\ exists w', main_loop [late_edge_cycle 2400; single_edge_cycle 351]
                          (boot false) = Some w'
                /\ g_distance w' = 351 / 117.
Proof.
  assert (Ha : armed (boot false)) by (split; reflexivity).
  assert (Hm : 0 <= 351 < 65536) by lia.
  split; [exact Ha|]. split; [exact Hm|].
  destruct (late_edge_corrupts_next (boot false) 2400 351 Ha Hm)
    as (w' & Hrun & Hd & _).
  exists w'. split; [exact Hrun | exact Hd].
Defined.

(** *** The measurement does not touch the alerts *)

Lemma alert_calls_quiet (cs : list Call) (c : Call) :
  is_alert_call c = false -> alert_calls (cs ++ [c]) = alert_calls cs.
Proof.
  intros H. unfold alert_calls. rewrite filter_app. cbn [filter].
  rewrite H. apply app_nil_r.
Qed.

Lemma onEdge_alert_frame (w : World) :
  alert_calls (calls (onEdge w)) = alert_calls (calls w).
Proof.
  destruct (Z.eq_dec (g_edgeCount w) 0) as [H0|H0].
  - rewrite (onEdge_rising w H0); cbn [calls].
    rewrite !alert_calls_quiet by reflexivity. reflexivity.
  - destruct (Z.eq_dec (g_edgeCount w) 1) as [H1|H1].
    + rewrite (onEdge_falling w H1); cbn [calls].
      rewrite !alert_calls_quiet by reflexivity. reflexivity.
    + rewrite (onEdge_other w H0 H1). reflexivity.
Qed.

Lemma step_alert_frame (a : Action) (c : Config) :
  alert_calls (calls (world (step a c))) = alert_calls (calls (world c))
  /\ rgb_buzzer (out (world (step a c))) = rgb_buzzer (out (world c))
  /\ g_distance (world (step a c)) = g_distance (world c)
  /\ g_stateMachine (world (step a c)) = g_stateMachine (world c).
Proof.
  destruct c as [p l w]. destruct a as [|[n|]]; cbn [step world].
  - destruct w as [th ec rf gd sm tm ed irq [tp lr lg lb bz] cs].
    destruct p;
      lazy -[app alert_calls Z.eqb]; try destruct (rf =? 0);
      rewrite ?alert_calls_quiet by reflexivity; repeat split; reflexivity.
  - destruct w; repeat split; reflexivity.
  - cbn [hw_step]. destruct (icu_irq w); [|repeat split; reflexivity].
    destruct (onEdge_frame w) as (_ & Hd & Hs & _ & Ho).
    rewrite onEdge_alert_frame, Hd, Hs, Ho. repeat split; reflexivity.
Qed.

Lemma run_alert_frame (sch : list Action) (c : Config) :
  alert_calls (calls (world (run sch c))) = alert_calls (calls (world c))
  /\ rgb_buzzer (out (world (run sch c))) = rgb_buzzer (out (world c))
  /\ g_distance (world (run sch c)) = g_distance (world c)
  /\ g_stateMachine (world (run sch c)) = g_stateMachine (world c).
Proof.
  revert c. induction sch as [|a sch IH]; intros c; cbn [run].
  - repeat split; reflexivity.
  - destruct (IH (step a c)) as (-> & -> & -> & ->).
    apply step_alert_frame.
Qed.

(** X13 (a missing echo freezes the alerts): entered armed, a pass that
    sees at most one edge never gets past the call; however long it waits,
    no call goes to the display, the indicators or the buzzer, and the
    indicator and buzzer levels, the stored distance and the stored band
    stay as the previous pass left them. *)
Theorem missing_echo_freezes (w : World) (sch : list Action)
    (Harmed : armed w) (Hedges : (edge_count sch <= 1)%nat) :
  main_pass sch w = None
  /\ alert_calls (calls (world (run sch (call_readDistance w))))
     = alert_calls (calls w)
  /\ rgb_buzzer (out (world (run sch (call_readDistance w))))
     = rgb_buzzer (out w)
  /\ g_distance (world (run sch (call_readDistance w))) = g_distance w
  /\ g_stateMachine (world (run sch (call_readDistance w)))
     = g_stateMachine w.
Proof.
  destruct Harmed as [Hec Hrf].
  split; [|apply (run_alert_frame sch (call_readDistance w))].
  destruct (run_blocks sch (call_readDistance w) eq_refl Hrf
              (or_introl (conj Hec Hedges))) as [Hwait _].
  unfold main_pass, returned. unfold waiting in Hwait.
  destruct (pc (run sch (call_readDistance w)));
    try discriminate Hwait; reflexivity.
Qed.

Lemma missing_echo_freezes_witness :
  armed (boot false)
  /\ (edge_count ([Fg; Fg; Hw Edge] ++ repeat Fg 50) <= 1)%nat
  /\ main_pass ([Fg; Fg; Hw Edge] ++ repeat Fg 50) (boot false) = None.
Proof.
  assert (Ha : armed (boot false)) by (split; reflexivity).
  assert (He : (edge_count ([Fg; Fg; Hw Edge] ++ repeat Fg 50) <= 1)%nat)
    by (cbn; lia).
  split; [exact Ha|]. split; [exact He|].
  apply (missing_echo_freezes (boot false) _ Ha He).
Defined.

(** *** Renderings one after the other *)

Lemma render_out (s : STATE_MACHINE) (w : World) :
  out (exec (render s) w)
  = out (exec (render s)
           (set_out (mkLevels (trigger_pin (out w)) false false false false)
                    w))
  /\ trigger_pin (out (exec (render s) w)) = trigger_pin (out w)
  /\ buzzer (out (exec (render s) w)) = false
  /\ g_distance (exec (render s) w) = g_distance w.
Proof.
  destruct w as [th ec rf gd sm tm ed irq [tp lr lg lb bz] cs].
  destruct s; repeat split; reflexivity.
Qed.

Lemma render_all_frame (bands : list STATE_MACHINE) (w : World) :
  trigger_pin (out (render_all bands w)) = trigger_pin (out w)
  /\ g_distance (render_all bands w) = g_distance w.
Proof.
  revert w. induction bands as [|s bands IH]; intros w; cbn [render_all].
  - split; reflexivity.
  - destruct (IH (exec (render s) w)) as (-> & ->).
    destruct (render_out s w) as (_ & Ht & _ & Hd). auto.
Qed.

(** X14 (no memory of earlier bands): after any sequence of renderings the
    output pins are exactly those that the last rendering alone would have
    produced from the initial world; the buzzer is off, and the trigger
    line and the stored distance are untouched. *)
Theorem render_all_last (bands : list STATE_MACHINE) (s : STATE_MACHINE)
    (w : World) :
  out (render_all (bands ++ [s]) w) = out (exec (render s) w)
  /\ buzzer (out (render_all (bands ++ [s]) w)) = false
  /\ trigger_pin (out (render_all (bands ++ [s]) w)) = trigger_pin (out w)
  /\ g_distance (render_all (bands ++ [s]) w) = g_distance w.
Proof.
  assert (Happ : render_all (bands ++ [s]) w
                 = exec (render s) (render_all bands w)).
  { revert w. induction bands as [|b bands IH]; intros w; [reflexivity|].
    cbn [app render_all]. apply IH. }
  rewrite Happ.
  destruct (render_all_frame bands w) as (Ht & Hd).
  destruct (render_out s (render_all bands w)) as (Ho & Ht' & Hb & Hd').
  destruct (render_out s w) as (Ho0 & _).
  rewrite Hb, Ht', Hd', Ht, Hd.
  repeat split; try reflexivity.
  rewrite Ho, Ho0, Ht.
  destruct (render_all bands w) as [th ec rf gd sm tm ed irq o cs].
  destruct w as [th0 ec0 rf0 gd0 sm0 tm0 ed0 irq0 o0 cs0].
  destruct s; reflexivity.
Qed.

(** X15 (start-up): whatever the four initialisation routines do, when the
    main loop is entered all three indicators and the buzzer are off; and
    after any number of completed passes the buzzer is off. *)
Theorem main_starts_quiet (drivers_init : M unit) (w : World)
    (schs : list (list Action)) :
  rgb_buzzer (out (exec (main_init drivers_init) w))
  = (false, false, false, false)
  /\ match main_loop schs (exec (main_init drivers_init) w) with
     | Some w' => buzzer (out w') = false
     | None => True
     end.
Proof.
  assert (Hoff : rgb_buzzer (out (exec (main_init drivers_init) w))
                 = (false, false, false, false)).
  { unfold main_init, exec, bind. destruct (drivers_init w) as [u w0].
    destruct w0 as [th ec rf gd sm tm ed irq [tp lr lg lb bz] cs].
    reflexivity. }
  split; [exact Hoff|].
  destruct schs as [|sch schs].
  - cbn [main_loop]. unfold rgb_buzzer in Hoff. congruence.
  - destruct (main_loop (sch :: schs) (exec (main_init drivers_init) w))
      as [w'|] eqn:Hrun; [|exact I].
    assert (Hne : sch :: schs <> []) by discriminate.
    exact (main_loop_quiet (sch :: schs) _ w' Hne Hrun).
Qed.

End MainExtras.
